(** * RAG server: a shallow embedding of [main.py] and [embedding_service.py]

    The request handlers of [main.py] are embedded as state-passing
    functions over a [World]: the module global [_embedding_service], the
    outcome of loading the sentence-transformers model, the outcome of
    [psycopg2.connect] and the rows of the table [embedding_store].

    Python floats are represented by rationals ([Q]); Python exceptions by
    the text [str(e)] that the handlers interpolate into their replies.
    What PostgreSQL, pgvector and the datetime library compute is taken
    through the interface [Externals]. *)

From Stdlib Require Import Ascii String DecimalString List ZArith NArith QArith Bool Lia.
From Stdlib Require Import Sorted Permutation Orders Mergesort.
Import ListNotations.

Local Open Scope string_scope.
Local Open Scope list_scope.

(** ** Values *)

(** A JSON document, as carried by a Python [dict] and a [jsonb] column. *)
#[warnings="-register-all"]
Inductive json : Type :=
| JNull
| JBool (b : bool)
| JNum (q : Q)
| JStr (s : string)
| JArr (items : list json)
| JObj (members : list (string * json)).

(** A Python [dict] with string keys. *)
Definition dict : Type := list (string * json).

(** Truth value of a Python object used as a condition. *)
Definition truthy_str (s : string) : bool :=
  match s with EmptyString => false | String _ _ => true end.

Definition truthy_opt_dict (o : option dict) : bool :=
  match o with None => false | Some [] => false | Some (_ :: _) => true end.

(** An embedding: [embedding.tolist()]. *)
Definition vector : Type := list Q.

(** ** Exceptions and the handler monad *)

Inductive exn : Type :=
| Exception (msg : string)
| HTTPException (status_code : Z) (detail : string).

(** ** The pydantic models of [main.py] *)

Module AddContentRequest.
Record t : Type := Build {
  user_id : string;
  content : string;
  source : option string;
  metadata : option dict
}.
End AddContentRequest.

Module ContentResponse.
Record t : Type := Build {
  id : string;
  user_id : string;
  content : string;
  source : option string;
  metadata : option dict;
  created : string
}.
End ContentResponse.

Module SearchRequest.
Record t : Type := Build {
  query : string;
  limit : option Z;
  user_id : option string;
  source : option string;
  distance_threshold : option Q;
  created_after : option string;
  created_before : option string
}.
End SearchRequest.

Module SearchResult.
Record t : Type := Build {
  id : string;
  user_id : string;
  content : string;
  source : option string;
  metadata : option dict;
  distance : Q;
  created : string
}.
End SearchResult.

Module DeleteResponse.
Record t : Type := Build {
  message : string;
  id : string
}.
End DeleteResponse.

Module HealthResponse.
Record t : Type := Build {
  status : string;
  database : string
}.
End HealthResponse.

(** ** Request bodies and pydantic validation

    A field of a JSON body is absent, [null] or present with a value. *)

Inductive field (A : Type) : Type :=
| Absent
| Null
| Given (a : A).
Arguments Absent {A}.
Arguments Null {A}.
Arguments Given {A} a.

(** [x: T = Field(...)]: a required field. *)
Definition required {A : Type} (ok : A -> bool) (f : field A) : option A :=
  match f with
  | Given a => if ok a then Some a else None
  | Absent | Null => None
  end.

(** [x: Optional[T] = Field(default, ...)]: an absent field takes the
    default, [null] is accepted as [None], and the constraints are checked
    on a value only. *)
Definition optional {A : Type} (default : option A) (ok : A -> bool)
    (f : field A) : option (option A) :=
  match f with
  | Absent => Some default
  | Null => Some None
  | Given a => if ok a then Some (Some a) else None
  end.

Definition max_length (n : nat) (s : string) : bool :=
  Nat.leb (String.length s) n.

Module SearchBody.
Record t : Type := Build {
  query : field string;
  limit : field Z;
  user_id : field string;
  source : field string;
  distance_threshold : field Q;
  created_after : field string;
  created_before : field string
}.
End SearchBody.

Definition SearchRequest_validate (b : SearchBody.t) : option SearchRequest.t :=
  match required (fun _ => true) (SearchBody.query b),
        optional (Some 10%Z) (fun n => (1 <=? n)%Z && (n <=? 100)%Z)
                 (SearchBody.limit b),
        optional None (max_length 9) (SearchBody.user_id b),
        optional None (max_length 255) (SearchBody.source b),
        optional None (fun d => Qle_bool 0 d && Qle_bool d 2)
                 (SearchBody.distance_threshold b),
        optional None (fun _ => true) (SearchBody.created_after b),
        optional None (fun _ => true) (SearchBody.created_before b)
  with
  | Some q, Some l, Some u, Some s, Some d, Some ca, Some cb =>
      Some (SearchRequest.Build q l u s d ca cb)
  | _, _, _, _, _, _, _ => None
  end.

Module AddContentBody.
Record t : Type := Build {
  user_id : field string;
  content : field string;
  source : field string;
  metadata : field dict
}.
End AddContentBody.

Definition AddContentRequest_validate (b : AddContentBody.t)
    : option AddContentRequest.t :=
  match required (max_length 9) (AddContentBody.user_id b),
        required (fun _ => true) (AddContentBody.content b),
        optional None (max_length 255) (AddContentBody.source b),
        optional None (fun _ => true) (AddContentBody.metadata b)
  with
  | Some u, Some c, Some s, Some m => Some (AddContentRequest.Build u c s m)
  | _, _, _, _ => None
  end.

(** ** The table [embedding_store] *)

Module Row.
Record t : Type := Build {
  id : string;
  user_id : string;
  content : string;
  embedding : vector;
  source : option string;
  metadata : option dict;
  created : Z
}.
End Row.

(** ** [embedding_service.py] *)

(** The sentence-transformers model: [encode] either raises (the message is
    kept) or yields the embedding. *)
Record SentenceTransformer : Type := {
  model_encode : string -> string + vector;
  get_sentence_embedding_dimension : Z
}.

Record EmbeddingService : Type := {
  model : SentenceTransformer;
  dimension : Z
}.

(** ** The world a request runs in *)

Record World : Type := {
  load_model : string + SentenceTransformer;
  _embedding_service : option EmbeddingService;
  connect_error : option string;
  embedding_store : list Row.t;
  id_seq : N;
  db_now : Z
}.

Definition set_embedding_service (w : World) (s : EmbeddingService) : World :=
  {| load_model := load_model w;
     _embedding_service := Some s;
     connect_error := connect_error w;
     embedding_store := embedding_store w;
     id_seq := id_seq w;
     db_now := db_now w |}.

Definition commit (w : World) (rows : list Row.t) (seq : N) : World :=
  {| load_model := load_model w;
     _embedding_service := _embedding_service w;
     connect_error := connect_error w;
     embedding_store := rows;
     id_seq := seq;
     db_now := db_now w |}.

(** A computation that reads and updates the world and may raise an [E]. *)
Definition M (E A : Type) : Type := World -> (E + A) * World.

Definition ret {E A : Type} (a : A) : M E A := fun w => (inr a, w).

Definition raise {E A : Type} (e : E) : M E A := fun w => (inl e, w).

Definition bind {E A B : Type} (m : M E A) (k : A -> M E B) : M E B :=
  fun w =>
    match m w with
    | (inl e, w') => (inl e, w')
    | (inr a, w') => k a w'
    end.

(** [try: m except E as e: h e] *)
Definition try_except {E F A : Type} (m : M E A) (h : E -> M F A) : M F A :=
  fun w =>
    match m w with
    | (inl e, w') => h e w'
    | (inr a, w') => (inr a, w')
    end.

Definition lift {E A : Type} (r : E + A) : M E A := fun w => (r, w).

Declare Scope handler_scope.
Delimit Scope handler_scope with handler.
Notation "x <- m ;; k" := (bind m (fun x => k))
  (at level 61, m at next level, right associativity) : handler_scope.
Notation "m ;;; k" := (bind m (fun _ => k))
  (at level 61, right associativity) : handler_scope.

(** [EmbeddingService.__init__] *)
Definition EmbeddingService_init (w : World) : string + EmbeddingService :=
  match load_model w with
  | inl e => inl e
  | inr m => inr {| model := m;
                    dimension := get_sentence_embedding_dimension m |}
  end.

(** [EmbeddingService.encode] *)
Definition encode (self : EmbeddingService) (text : string) : string + vector :=
  model_encode (model self) text.

(** [EmbeddingService.get_dimension] *)
Definition get_dimension (self : EmbeddingService) : Z := dimension self.

(** [get_embedding_service]: the instance is built on first use and kept. *)
Definition get_embedding_service : M string EmbeddingService :=
  fun w =>
    match _embedding_service w with
    | Some s => (inr s, w)
    | None =>
        match EmbeddingService_init w with
        | inl e => (inl e, w)
        | inr s => (inr s, set_embedding_service w s)
        end
    end.

(** [get_db_connection] *)
Definition get_db_connection : M string unit :=
  fun w =>
    match connect_error w with
    | Some e => (inl e, w)
    | None => (inr tt, w)
    end.

Definition as_exception {A : Type} (m : M string A) : M exn A :=
  try_except m (fun e => raise (Exception e)).

(** ** PostgreSQL, pgvector and datetime

    [cosine_distance] is pgvector's operator [<=>]; [timestamptz_in] is the
    cast [%s::timestamptz], which raises on malformed text; [isoformat] is
    [datetime.isoformat]; [gen_id] is the default of the column [id];
    [DEFAULT_DISTANCE_THRESHOLD] is the module constant read from the
    environment at start-up.

    The column [id] is not a text column: the handlers put [str] around
    what they read from it. A row holds the text [str] gives for its id,
    and [id_in] is how the column reads the text bound to [id = %s]: the
    message of the error raised for a text it cannot take, or else the text
    [str] gives for the id that was read (for instance the lower-case form
    of a uuid written in upper case). *)
Class Externals : Type := {
  cosine_distance : vector -> vector -> Q;
  timestamptz_in : string -> string + Z;
  isoformat : Z -> string;
  gen_id : N -> string;
  id_in : string -> string + string;
  DEFAULT_DISTANCE_THRESHOLD : Q
}.

(** The conditions the search handler appends to [filters], each with the
    parameter bound to its [%s]. *)
Inductive clause : Type :=
| UserIdEq (p : string)
| SourceEq (p : string)
| CreatedGe (p : string)
| CreatedLe (p : string)
| DistanceLe (embedding_str : vector) (p : Q).

(** [ORDER BY distance] over the selected rows and their distance. *)
Module DistanceOrder <: TotalLeBool.
Definition t : Type := (Row.t * Q)%type.
Definition leb (x y : t) : bool := Qle_bool (snd x) (snd y).
Lemma leb_total : forall x y, leb x y = true \/ leb y x = true.
Proof.
  intros x y. unfold leb. rewrite !Qle_bool_iff.
  destruct (Qlt_le_dec (snd y) (snd x)) as [H | H].
  - right. apply Qlt_le_weak. exact H.
  - left. exact H.
Qed.
End DistanceOrder.

Module OrderByDistance := Sort DistanceOrder.

Section Handlers.
Context {X : Externals}.
Local Open Scope handler_scope.

Definition compile_clause (c : clause) : string + (Row.t -> bool) :=
  match c with
  | UserIdEq p => inr (fun r => String.eqb (Row.user_id r) p)
  | SourceEq p =>
      inr (fun r => match Row.source r with
                    | Some s => String.eqb s p
                    | None => false
                    end)
  | CreatedGe p =>
      match timestamptz_in p with
      | inl e => inl e
      | inr t => inr (fun r => (t <=? Row.created r)%Z)
      end
  | CreatedLe p =>
      match timestamptz_in p with
      | inl e => inl e
      | inr t => inr (fun r => (Row.created r <=? t)%Z)
      end
  | DistanceLe embedding_str p =>
      inr (fun r => Qle_bool (cosine_distance (Row.embedding r) embedding_str) p)
  end.

(** ["WHERE " + " AND ".join(filters) if filters else ""] *)
Fixpoint where_clause (filters : list clause) : string + (Row.t -> bool) :=
  match filters with
  | [] => inr (fun _ => true)
  | c :: cs =>
      match compile_clause c, where_clause cs with
      | inl e, _ => inl e
      | inr _, inl e => inl e
      | inr p, inr ps => inr (fun r => p r && ps r)
      end
  end.

(** The [SELECT ... ORDER BY distance LIMIT %s] of [search_content]; a
    [NULL] limit is no limit. *)
Definition execute_select (embedding_str : vector) (filters : list clause)
    (limit : option Z) (rows : list Row.t) : string + list (Row.t * Q) :=
  match where_clause filters with
  | inl e => inl e
  | inr p =>
      let selected :=
        map (fun r => (r, cosine_distance (Row.embedding r) embedding_str))
            (filter p rows) in
      let ordered := OrderByDistance.sort selected in
      match limit with
      | None => inr ordered
      | Some n =>
          if (n <? 0)%Z then inl "LIMIT must not be negative"
          else inr (firstn (Z.to_nat n) ordered)
      end
  end.

(** The [INSERT ... RETURNING] of [add_content], with its commit. *)
Definition execute_insert (user_id content : string) (embedding_str : vector)
    (source : option string) (metadata_json : option dict) : M string Row.t :=
  fun w =>
    let row := Row.Build (gen_id (id_seq w)) user_id content embedding_str
                         source metadata_json (db_now w) in
    (inr row, commit w (embedding_store w ++ [row]) (N.succ (id_seq w))).

(** How [id = %s] reads the bound text. The text of a stored id was made
    by [str] from an id of the column, so it is read as itself; any other
    text goes through [id_in]. *)
Definition read_id (content_id : string) (rows : list Row.t)
    : string + string :=
  if existsb (fun r => String.eqb (Row.id r) content_id) rows
  then inr content_id
  else id_in content_id.

(** The [DELETE] of [remove_content]: the statement raises when the column
    cannot take the text; otherwise it yields the remaining rows and
    [rowcount]. *)
Definition execute_delete (content_id : string) (rows : list Row.t)
    : string + list Row.t * nat :=
  match read_id content_id rows with
  | inl e => inl e
  | inr id =>
      inr (filter (fun r => negb (String.eqb (Row.id r) id)) rows,
           List.length (filter (fun r => String.eqb (Row.id r) id) rows))
  end.

(** [health_check] *)
Definition health_check : M exn HealthResponse.t :=
  try_except
    (get_db_connection ;;;
     ret (HealthResponse.Build "healthy" "connected"))
    (fun e => ret (HealthResponse.Build "unhealthy" ("error: " ++ e))).

(** [add_content] *)
Definition add_content (request : AddContentRequest.t)
    : M exn ContentResponse.t :=
  try_except
    (embedding_service <- get_embedding_service ;;
     embedding <- lift (encode embedding_service
                               (AddContentRequest.content request)) ;;
     get_db_connection ;;;
     let embedding_str := embedding in
     let metadata_json :=
       if truthy_opt_dict (AddContentRequest.metadata request)
       then AddContentRequest.metadata request
       else None in
     result <- execute_insert (AddContentRequest.user_id request)
                              (AddContentRequest.content request)
                              embedding_str
                              (AddContentRequest.source request)
                              metadata_json ;;
     ret (ContentResponse.Build (Row.id result)
                                (Row.user_id result)
                                (Row.content result)
                                (Row.source result)
                                (Row.metadata result)
                                (isoformat (Row.created result))))
    (fun e => raise (HTTPException 500 ("Database error: " ++ e))).

(** [remove_content] *)
Definition remove_content (content_id : string) : M exn DeleteResponse.t :=
  try_except
    (as_exception get_db_connection ;;;
     fun w =>
       match execute_delete content_id (embedding_store w) with
       | inl e => (inl (Exception e), w)
       | inr (rows, rowcount) =>
           if Nat.eqb rowcount 0
           then (inl (HTTPException 404 "Content not found"), w)
           else (inr (DeleteResponse.Build "Content deleted successfully"
                                           content_id),
                 commit w rows (id_seq w))
       end)
    (fun e =>
       match e with
       | HTTPException _ _ => raise e
       | Exception msg => raise (HTTPException 500 ("Database error: " ++ msg))
       end).

(** The optional filters of [search_content]: a clause is appended when
    the value is truthy. *)
Definition clause_if (o : option string) (mk : string -> clause)
    : list clause :=
  match o with
  | Some s => if truthy_str s then [mk s] else []
  | None => []
  end.

Definition effective_threshold (request : SearchRequest.t) : Q :=
  match SearchRequest.distance_threshold request with
  | Some d => d
  | None => DEFAULT_DISTANCE_THRESHOLD
  end.

(** The threshold clause is appended whenever the threshold is not
    [None]; it never is, the default being a float. *)
Definition search_filters (request : SearchRequest.t) (embedding_str : vector)
    : list clause :=
  clause_if (SearchRequest.user_id request) UserIdEq
  ++ clause_if (SearchRequest.source request) SourceEq
  ++ clause_if (SearchRequest.created_after request) CreatedGe
  ++ clause_if (SearchRequest.created_before request) CreatedLe
  ++ [DistanceLe embedding_str (effective_threshold request)].

Definition to_search_result (row : Row.t * Q) : SearchResult.t :=
  SearchResult.Build (Row.id (fst row))
                     (Row.user_id (fst row))
                     (Row.content (fst row))
                     (Row.source (fst row))
                     (Row.metadata (fst row))
                     (snd row)
                     (isoformat (Row.created (fst row))).

(** [search_content] *)
Definition search_content (request : SearchRequest.t)
    : M exn (list SearchResult.t) :=
  try_except
    (embedding_service <- get_embedding_service ;;
     embedding <- lift (encode embedding_service
                               (SearchRequest.query request)) ;;
     get_db_connection ;;;
     let embedding_str := embedding in
     let filters := search_filters request embedding_str in
     results <- (fun w => (execute_select embedding_str filters
                                          (SearchRequest.limit request)
                                          (embedding_store w), w)) ;;
     ret (map to_search_result results))
    (fun e => raise (HTTPException 500 ("Database error: " ++ e))).

(** What [add_content] and [search_content] do first: fetch the service
    and encode the text. *)
Definition embed (text : string) : M string vector :=
  embedding_service <- get_embedding_service ;;
  lift (encode embedding_service text).

Definition embedder_fails (text : string) (w : World) : Prop :=
  exists e w', embed text w = (inl e, w').

Definition embedder_ready (w : World) : Prop :=
  exists s w', get_embedding_service w = (inr s, w').

(** *** Readings of the specification that the handlers are compared with *)

(** An error of an insert can be classified: it is an embedding error
    exactly when the embedder failed on the request. *)
Definition embedding_errors_classified : Prop :=
  exists is_embedding_error : exn -> bool,
    forall (w w' : World) (request : AddContentRequest.t) (e : exn),
      add_content request w = (inl e, w') ->
      (embedder_fails (AddContentRequest.content request) w ->
       is_embedding_error e = true)
      /\ (~ embedder_fails (AddContentRequest.content request) w ->
          is_embedding_error e = false).

(** The health result has a field that tells whether the embedder is
    ready. *)
Definition health_reports_embedder : Prop :=
  exists embedderReady : HealthResponse.t -> bool,
    forall (w w' : World) (r : HealthResponse.t),
      health_check w = (inr r, w') ->
      (embedderReady r = true <-> embedder_ready w).

(** The record returned by an insert holds the stored vector. *)
Definition response_carries_vector : Prop :=
  exists vector_of : ContentResponse.t -> vector,
    forall (w w' : World) (request : AddContentRequest.t)
           (r : ContentResponse.t),
      add_content request w = (inr r, w') ->
      exists row,
        embedding_store w' = embedding_store w ++ [row]
        /\ vector_of r = Row.embedding row.

(** A delete of a text that no stored record has as its id is answered
    404 "Content not found". *)
Definition absent_delete_not_found : Prop :=
  forall (w : World) (content_id : string),
    (forall row, In row (embedding_store w) -> Row.id row <> content_id) ->
    fst (remove_content content_id w)
    = inl (HTTPException 404 "Content not found").

(** Every stored id is a text the column reads as itself. *)
Definition ids_canonical (rows : list Row.t) : Prop :=
  Forall (fun row => id_in (Row.id row) = inr (Row.id row)) rows.

(** The order of [ORDER BY distance], on rows and on results. *)
Definition by_distance (x y : Row.t * Q) : Prop := snd x <= snd y.

Definition ascending (a b : SearchResult.t) : Prop :=
  SearchResult.distance a <= SearchResult.distance b.

Definition with_user_id (r : Row.t) (u : string) : Row.t :=
  Row.Build (Row.id r) u (Row.content r) (Row.embedding r) (Row.source r)
            (Row.metadata r) (Row.created r).

End Handlers.

(** ** Start-up

    The part of [lifespan] that runs before the first request: the database
    is probed and the embedding model loaded, and a failure of either is
    caught. What it prints is not part of the world. *)
Definition lifespan_startup : M exn unit :=
  (try_except (get_db_connection ;;; ret tt) (fun _ => ret tt) ;;;
   try_except (embedding_service <- get_embedding_service ;;
               let _ := get_dimension embedding_service in
               ret tt)
              (fun _ => ret tt))%handler.

(** ** Notions the properties are stated with *)

(** Every stored vector is what the service makes of the stored text. *)
Definition vectors_match (s : EmbeddingService) (rows : list Row.t) : Prop :=
  Forall (fun row => encode s (Row.content row) = inr (Row.embedding row)) rows.

(** A filter value that makes the handler append its clause. *)
Definition supplied (o : option string) (s : string) : Prop :=
  o = Some s /\ s <> "".

Section Matching.
Context {X : Externals}.

(** A stored row meets every filter the request supplies and lies within
    the effective threshold of the query vector [v]. *)
Definition passes_filters (request : SearchRequest.t) (v : vector)
    (row : Row.t) : Prop :=
  (forall u, supplied (SearchRequest.user_id request) u ->
     Row.user_id row = u)
  /\ (forall s, supplied (SearchRequest.source request) s ->
       Row.source row = Some s)
  /\ (forall s, supplied (SearchRequest.created_after request) s ->
       exists t, timestamptz_in s = inr t /\ (t <= Row.created row)%Z)
  /\ (forall s, supplied (SearchRequest.created_before request) s ->
       exists t, timestamptz_in s = inr t /\ (Row.created row <= t)%Z)
  /\ cosine_distance (Row.embedding row) v <= effective_threshold request.

(** The row with its distance, as [search_content] returns it. *)
Definition result_of (v : vector) (row : Row.t) : SearchResult.t :=
  to_search_result (row, cosine_distance (Row.embedding row) v).

End Matching.

(** ** A small instance to run the handlers on

    Embeddings of one dimension, where the cosine distance is [0] for equal
    signs and [2] for opposite signs. *)
Module Example.

Definition cosine_1d (a b : vector) : Q :=
  match a, b with
  | [x], [y] =>
      if Qle_bool (x * y) 0
      then (if Qle_bool 0 (x * y) then 1 else 2)
      else 0
  | _, _ => 1
  end.

Definition t2024 : string := "2024-01-01T00:00:00+00:00".
Definition t2025 : string := "2025-01-01T00:00:00+00:00".

Definition parse_timestamp (s : string) : string + Z :=
  if String.eqb s t2024 then inr 1704067200%Z
  else if String.eqb s t2025 then inr 1735689600%Z
  else inl ("invalid input syntax for type timestamp with time zone: " ++ s)%string.

Definition show_timestamp (t : Z) : string :=
  if (t =? 1735689600)%Z then t2025 else t2024.

Definition serial (n : N) : string :=
  ("id-" ++ NilEmpty.string_of_uint (N.to_uint n))%string.

Definition is_digit (a : Ascii.ascii) : bool :=
  Nat.leb 48 (Ascii.nat_of_ascii a) && Nat.leb (Ascii.nat_of_ascii a) 57.

Fixpoint all_digits (s : string) : bool :=
  match s with
  | EmptyString => true
  | String a rest => is_digit a && all_digits rest
  end.

(** Ids are written "id-" and a number; the letters may be in upper case,
    as the digits of a uuid may. *)
Definition read_serial (s : string) : string + string :=
  match s with
  | String i (String d (String dash (String a rest))) =>
      if (Ascii.eqb i "i"%char || Ascii.eqb i "I"%char)
         && (Ascii.eqb d "d"%char || Ascii.eqb d "D"%char)
         && Ascii.eqb dash "-"%char
         && all_digits (String a rest)
      then inr (String "i"%char
                  (String "d"%char (String "-"%char (String a rest))))
      else inl ("invalid input syntax for type id: " ++ s)%string
  | _ => inl ("invalid input syntax for type id: " ++ s)%string
  end.

Definition externals : Externals :=
  {| cosine_distance := cosine_1d;
     timestamptz_in := parse_timestamp;
     isoformat := show_timestamp;
     gen_id := serial;
     id_in := read_serial;
     DEFAULT_DISTANCE_THRESHOLD := 7 # 10 |}.

(** A model that puts one text on the negative side. *)
Definition sign_model : SentenceTransformer :=
  {| model_encode := fun text =>
       if String.eqb text "financial markets crashed today"
       then inr [-1] else inr [1];
     get_sentence_embedding_dimension := 1 |}.

(** The same model with the sides exchanged. *)
Definition mirror_model : SentenceTransformer :=
  {| model_encode := fun text =>
       if String.eqb text "financial markets crashed today"
       then inr [1] else inr [-1];
     get_sentence_embedding_dimension := 1 |}.

Definition alice : Row.t :=
  Row.Build "id-0" "alice" "the cat sat on the mat" [1]
            (Some "cats.txt") None 1704067200.

Definition bob : Row.t :=
  Row.Build "id-1" "bob" "financial markets crashed today" [-1]
            None (Some [("topic", JStr "markets")]) 1735689600.

Definition world_with (m : string + SentenceTransformer)
    (c : option string) (rows : list Row.t) : World :=
  {| load_model := m;
     _embedding_service := None;
     connect_error := c;
     embedding_store := rows;
     id_seq := N.of_nat (List.length rows);
     db_now := 1735689600 |}.

(** Model loaded, database reachable, two records. *)
Definition world : World := world_with (inr sign_model) None [alice; bob].

(** The model cannot be loaded. *)
Definition world_no_model : World :=
  world_with (inl "unavailable") None [alice; bob].

(** The database cannot be reached. *)
Definition world_no_db : World :=
  world_with (inr sign_model) (Some "unavailable") [alice; bob].

Definition world_mirror : World :=
  world_with (inr mirror_model) None [alice; bob].

(** A store of 101 records by one owner. *)
Definition world_101 : World :=
  world_with (inr sign_model) None (repeat alice 101).

Definition search_for (limit : option Z) (user_id : option string)
    (distance_threshold : option Q) : SearchRequest.t :=
  SearchRequest.Build "a feline on a rug" limit user_id None
                      distance_threshold None None.

(** The body [{"query": "a feline on a rug", "limit": null}]. *)
Definition body_null_limit : SearchBody.t :=
  SearchBody.Build (Given "a feline on a rug") Null Absent Absent Absent
                   Absent Absent.

Definition add_hello (metadata : option dict) : AddContentRequest.t :=
  AddContentRequest.Build "u1" "hello world" None metadata.

(** The body [{"user_id": "u1", "content": "hello world", "metadata": {}}]. *)
Definition body_empty_metadata : AddContentBody.t :=
  AddContentBody.Build (Given "u1") (Given "hello world") Absent (Given []).

End Example.

(** More worlds and requests on the same instance. *)
Module Tour.

Definition service : EmbeddingService :=
  {| model := Example.sign_model; dimension := 1 |}.

(** The example world once the model is loaded. *)
Definition loaded : World := set_embedding_service Example.world service.

Definition search_alice : SearchRequest.t :=
  Example.search_for (Some 10%Z) (Some "alice") (Some 2).

(** Only the closest record is asked for. *)
Definition search_top1 : SearchRequest.t :=
  Example.search_for (Some 1%Z) None (Some 2).

(** The records of one owner created since 2025, at any distance. *)
Definition search_bob_since : SearchRequest.t :=
  SearchRequest.Build "a feline on a rug" (Some 10%Z) (Some "bob") None
                      (Some 2) (Some Example.t2025) None.

Definition search_since (created_after : string) : SearchRequest.t :=
  SearchRequest.Build "a feline on a rug" (Some 10%Z) None None None
                      (Some created_after) None.

Definition search_hello : SearchRequest.t :=
  SearchRequest.Build "hello world" (Some 10%Z) (Some "u1") None None
                      None None.

(** The body [{"query": "a feline on a rug"}]. *)
Definition body_query_only : SearchBody.t :=
  SearchBody.Build (Given "a feline on a rug") Absent Absent Absent Absent
                   Absent Absent.

(** The body [{"query": ..., "limit": 5, "user_id": "alice",
    "distance_threshold": 1}]. *)
Definition body_limit_5 : SearchBody.t :=
  SearchBody.Build (Given "a feline on a rug") (Given 5%Z) (Given "alice")
                   Absent (Given 1) Absent Absent.

End Tour.

(** * Properties *)

Section Properties.
Context {X : Externals}.

(** ** The embedding service *)

Lemma get_embedding_service_store (w w' : World) r :
  get_embedding_service w = (r, w') ->
  embedding_store w' = embedding_store w
  /\ connect_error w' = connect_error w
  /\ id_seq w' = id_seq w
  /\ db_now w' = db_now w.
Proof.
  unfold get_embedding_service.
  destruct (_embedding_service w).
  - intros H. inversion H. subst. auto.
  - destruct (EmbeddingService_init w); intros H; inversion H; subst;
      simpl; auto.
Qed.

Lemma embed_store text (w w' : World) r :
  embed text w = (r, w') ->
  embedding_store w' = embedding_store w
  /\ connect_error w' = connect_error w
  /\ id_seq w' = id_seq w
  /\ db_now w' = db_now w.
Proof.
  unfold embed, bind, lift.
  destruct (get_embedding_service w) as [[e | s] w1] eqn:G;
    intros H; inversion H; subst;
    exact (get_embedding_service_store _ _ _ G).
Qed.

(** ** The WHERE clause *)

Lemma where_clause_In filters p :
  where_clause filters = inr p ->
  forall c, In c filters ->
    exists pc, compile_clause c = inr pc
               /\ forall r, p r = true -> pc r = true.
Proof.
  revert p. induction filters as [| c0 cs IH]; intros p H c Hin.
  - destruct Hin.
  - simpl in H.
    destruct (compile_clause c0) as [e | p0] eqn:E0; [discriminate |].
    destruct (where_clause cs) as [e | ps] eqn:Es; [discriminate |].
    inversion H; subst; clear H.
    destruct Hin as [-> | Hin].
    + exists p0. split; [exact E0 |].
      intros r Hr. apply andb_true_iff in Hr. tauto.
    + destruct (IH ps eq_refl c Hin) as [pc [Ec Hpc]].
      exists pc. split; [exact Ec |].
      intros r Hr. apply andb_true_iff in Hr. apply Hpc. tauto.
Qed.

Lemma where_clause_app fs gs p :
  where_clause (fs ++ gs) = inr p ->
  exists pf pg, where_clause fs = inr pf /\ where_clause gs = inr pg
                /\ forall r, p r = pf r && pg r.
Proof.
  revert p. induction fs as [| c cs IH]; intros p H; simpl in *.
  - exists (fun _ => true), p. auto.
  - destruct (compile_clause c) as [e | p0]; [discriminate |].
    destruct (where_clause (cs ++ gs)) as [e | ps] eqn:Es; [discriminate |].
    inversion H; subst; clear H.
    destruct (IH ps eq_refl) as [pf [pg [Hf [Hg Hr]]]].
    rewrite Hf. exists (fun r => p0 r && pf r), pg.
    repeat split; auto.
    intros r. rewrite Hr. apply andb_assoc.
Qed.

(** ** The SELECT statement *)

Lemma Sorted_by_distance l :
  Sorted by_distance (OrderByDistance.sort l).
Proof.
  eapply Sorted_ind with (P := fun l => Sorted by_distance l).
  - constructor.
  - intros a l' _ IH Hd. constructor; [exact IH |].
    destruct Hd as [| b l'' Hb]; constructor.
    unfold by_distance. apply Qle_bool_iff. exact Hb.
  - apply OrderByDistance.Sorted_sort.
Qed.

Lemma Sorted_firstn {A : Type} (R : A -> A -> Prop) n l :
  Sorted R l -> Sorted R (firstn n l).
Proof.
  revert l. induction n as [| n IH]; intros l H; simpl.
  - constructor.
  - destruct H as [| a l Hs Hd]; constructor.
    + apply IH. exact Hs.
    + destruct Hd as [| b l' Hb]; destruct n; simpl; constructor. exact Hb.
Qed.

Lemma In_firstn {A : Type} (x : A) n l : In x (firstn n l) -> In x l.
Proof.
  intros H. rewrite <- (firstn_skipn n l). apply in_or_app. left. exact H.
Qed.

Lemma Sorted_map {A B : Type} (R : A -> A -> Prop) (S : B -> B -> Prop)
    (f : A -> B) l :
  (forall x y, R x y -> S (f x) (f y)) ->
  Sorted R l -> Sorted S (map f l).
Proof.
  intros HRS H. induction H as [| a l Hs IH Hd]; simpl; constructor.
  - exact IH.
  - destruct Hd as [| b l' Hb]; simpl; constructor. apply HRS. exact Hb.
Qed.

(** The rows a successful SELECT returns: each is a stored row that
    passes the WHERE clause, paired with its distance to the query; they
    come in the order of the sort, cut at the limit. *)
Lemma execute_select_inr v filters limit rows selected :
  execute_select v filters limit rows = inr selected ->
  exists p,
    where_clause filters = inr p
    /\ let ordered :=
         OrderByDistance.sort
           (map (fun r => (r, cosine_distance (Row.embedding r) v))
                (filter p rows)) in
       match limit with
       | None => selected = ordered
       | Some n => (0 <= n)%Z /\ selected = firstn (Z.to_nat n) ordered
       end.
Proof.
  unfold execute_select.
  destruct (where_clause filters) as [e | p]; [discriminate |].
  intros H. exists p. split; [reflexivity |]. simpl.
  destruct limit as [n |].
  - destruct (Z.ltb_spec n 0); [discriminate |].
    inversion H. split; [assumption | reflexivity].
  - inversion H. reflexivity.
Qed.

Lemma execute_select_rows v filters limit rows selected p :
  execute_select v filters limit rows = inr selected ->
  where_clause filters = inr p ->
  forall x, In x selected ->
    In (fst x) rows /\ p (fst x) = true
    /\ snd x = cosine_distance (Row.embedding (fst x)) v.
Proof.
  intros H Hp x Hx.
  destruct (execute_select_inr _ _ _ _ _ H) as [p' [Hp' Hsel]].
  rewrite Hp in Hp'. inversion Hp'; subst p'; clear Hp'.
  simpl in Hsel.
  assert (Hin : In x (map (fun r => (r, cosine_distance (Row.embedding r) v))
                          (filter p rows))).
  { destruct limit as [n |].
    - destruct Hsel as [_ ->]. apply In_firstn in Hx.
      eapply Permutation_in; [apply Permutation_sym,
                               OrderByDistance.Permuted_sort | exact Hx].
    - subst selected.
      eapply Permutation_in; [apply Permutation_sym,
                               OrderByDistance.Permuted_sort | exact Hx]. }
  apply in_map_iff in Hin. destruct Hin as [r [<- Hr]].
  apply filter_In in Hr. simpl. tauto.
Qed.

Lemma execute_select_sorted v filters limit rows selected :
  execute_select v filters limit rows = inr selected ->
  Sorted by_distance selected.
Proof.
  intros H.
  destruct (execute_select_inr _ _ _ _ _ H) as [p [_ Hsel]].
  simpl in Hsel. destruct limit as [n |].
  - destruct Hsel as [_ ->]. apply Sorted_firstn, Sorted_by_distance.
  - subst selected. apply Sorted_by_distance.
Qed.

Lemma execute_select_limit v filters n rows selected :
  execute_select v filters (Some n) rows = inr selected ->
  (0 <= n)%Z /\ (Z.of_nat (List.length selected) <= n)%Z.
Proof.
  intros H.
  destruct (execute_select_inr _ _ _ _ _ H) as [p [_ Hsel]].
  simpl in Hsel. destruct Hsel as [Hn ->]. split; [exact Hn |].
  pose proof (firstn_le_length (Z.to_nat n)
    (OrderByDistance.sort
       (map (fun r => (r, cosine_distance (Row.embedding r) v))
            (filter p rows)))).
  lia.
Qed.

(** ** [search_content] *)

(** A search that returns went through the embedder, the connection and
    the SELECT. *)
Lemma search_content_inr request w w' results :
  search_content request w = (inr results, w') ->
  exists v selected,
    embed (SearchRequest.query request) w = (inr v, w')
    /\ connect_error w = None
    /\ execute_select v (search_filters request v)
                      (SearchRequest.limit request)
                      (embedding_store w) = inr selected
    /\ results = map to_search_result selected.
Proof.
  unfold search_content, try_except, bind, lift, ret, raise.
  destruct (get_embedding_service w) as [[e | s] w1] eqn:G;
    [discriminate |].
  destruct (encode s (SearchRequest.query request)) as [e | v] eqn:E;
    [discriminate |].
  destruct (get_embedding_service_store _ _ _ G) as [Hs [Hc _]].
  unfold get_db_connection. rewrite Hc.
  destruct (connect_error w) as [e |]; [discriminate |].
  destruct (execute_select v (search_filters request v)
              (SearchRequest.limit request) (embedding_store w1))
    as [e | selected] eqn:S; [discriminate |].
  intros H. inversion H; subst; clear H.
  exists v, selected. rewrite <- Hs.
  unfold embed, bind, lift. rewrite G, E. auto.
Qed.

Lemma clause_if_In o mk s :
  o = Some s -> s <> "" -> In (mk s) (clause_if o mk).
Proof.
  intros -> Hs. unfold clause_if.
  destruct s; [congruence | simpl; auto].
Qed.

Lemma search_filters_threshold request v :
  In (DistanceLe v (effective_threshold request)) (search_filters request v).
Proof.
  unfold search_filters. rewrite !in_app_iff. simpl. tauto.
Qed.

Lemma where_clause_agree filters p r1 r2 :
  where_clause filters = inr p ->
  (forall c pc, In c filters -> compile_clause c = inr pc -> pc r1 = pc r2) ->
  p r1 = p r2.
Proof.
  revert p. induction filters as [| c cs IH]; intros p H Hc; simpl in H.
  - inversion H. reflexivity.
  - destruct (compile_clause c) as [e | p0] eqn:E0; [discriminate |].
    destruct (where_clause cs) as [e | ps] eqn:Es; [discriminate |].
    inversion H; subst; clear H.
    rewrite (Hc c p0 (or_introl eq_refl) E0).
    rewrite (IH ps eq_refl); [reflexivity |].
    intros c' pc Hin. apply Hc. right. exact Hin.
Qed.

Lemma Sorted_adjacent {A : Type} (R : A -> A -> Prop) l :
  Sorted R l ->
  forall i a b, nth_error l i = Some a -> nth_error l (S i) = Some b -> R a b.
Proof.
  induction 1 as [| x l Hs IH Hd]; intros i a b Ha Hb.
  - destruct i; discriminate.
  - destruct i as [| i]; simpl in Ha, Hb.
    + inversion Ha; subst. destruct Hd as [| y l' Hy]; simpl in Hb.
      * discriminate.
      * inversion Hb; subst. exact Hy.
    + eapply IH; eassumption.
Qed.

(** C5. A search that returns holds no record farther from the query than
    the effective threshold, which is the request's [distance_threshold]
    when one is supplied and [DEFAULT_DISTANCE_THRESHOLD] otherwise: every
    result is within it, and a stored record whose distance to the query
    vector exceeds it is not among the results. *)
Theorem search_threshold_exclusion request w w' results :
  search_content request w = (inr results, w') ->
  forall threshold,
    threshold = match SearchRequest.distance_threshold request with
                | Some d => d
                | None => DEFAULT_DISTANCE_THRESHOLD
                end ->
    Forall (fun r => SearchResult.distance r <= threshold) results
    /\ forall v row,
         embed (SearchRequest.query request) w = (inr v, w') ->
         In row (embedding_store w) ->
         ~ cosine_distance (Row.embedding row) v <= threshold ->
         ~ In (to_search_result (row, cosine_distance (Row.embedding row) v))
              results.
Proof.
  intros H threshold Ht.
  destruct (search_content_inr _ _ _ _ H) as [v [selected [Hv [_ [Hs ->]]]]].
  destruct (execute_select_inr _ _ _ _ _ Hs) as [p [Hp _]].
  assert (Hall : forall x, In x selected -> snd x <= threshold).
  { intros x Hx.
    destruct (execute_select_rows _ _ _ _ _ _ Hs Hp x Hx) as [_ [Hpx Hd]].
    destruct (where_clause_In _ _ Hp _ (search_filters_threshold request v))
      as [pc [Hc Hpc]].
    simpl in Hc. inversion Hc; subst pc; clear Hc.
    specialize (Hpc _ Hpx). simpl in Hpc.
    apply Qle_bool_iff in Hpc. rewrite Hd, Ht. exact Hpc. }
  split.
  - apply Forall_forall. intros r Hr.
    apply in_map_iff in Hr. destruct Hr as [x [<- Hx]].
    simpl. apply Hall. exact Hx.
  - intros v' row Hv' _ Hfar Hin.
    apply in_map_iff in Hin. destruct Hin as [x [Hx Hxin]].
    apply Hfar. apply (f_equal SearchResult.distance) in Hx.
    simpl in Hx. rewrite <- Hx. apply Hall. exact Hxin.
Qed.

(** C6. The results of a search that returns are in ascending order of
    distance: of two adjacent results, the earlier one's distance is at
    most the later one's. *)
Theorem search_sorted_by_distance request w w' results :
  search_content request w = (inr results, w') ->
  Sorted ascending results
  /\ forall i a b,
       nth_error results i = Some a ->
       nth_error results (S i) = Some b ->
       SearchResult.distance a <= SearchResult.distance b.
Proof.
  intros H.
  destruct (search_content_inr _ _ _ _ H) as [v [selected [_ [_ [Hs ->]]]]].
  assert (Hsorted : Sorted ascending (map to_search_result selected)).
  { apply Sorted_map with (R := by_distance).
    - intros x y Hxy. exact Hxy.
    - eapply execute_select_sorted. exact Hs. }
  split; [exact Hsorted |].
  apply (Sorted_adjacent ascending _ Hsorted).
Qed.

(** When the request's limit is a number, a search returns at most that
    many results. *)
Lemma search_limit_bound request w w' results n :
  search_content request w = (inr results, w') ->
  SearchRequest.limit request = Some n ->
  (Z.of_nat (List.length results) <= n)%Z.
Proof.
  intros H Hn.
  destruct (search_content_inr _ _ _ _ H) as [v [selected [_ [_ [Hs ->]]]]].
  rewrite Hn in Hs. rewrite length_map.
  apply (execute_select_limit _ _ _ _ _ Hs).
Qed.

(** With a [null] limit a search returns every qualifying record. *)
Lemma search_null_limit_all request w w' results :
  search_content request w = (inr results, w') ->
  SearchRequest.limit request = None ->
  exists v p,
    embed (SearchRequest.query request) w = (inr v, w')
    /\ where_clause (search_filters request v) = inr p
    /\ List.length results = List.length (filter p (embedding_store w)).
Proof.
  intros H Hn.
  destruct (search_content_inr _ _ _ _ H) as [v [selected [Hv [_ [Hs ->]]]]].
  destruct (execute_select_inr _ _ _ _ _ Hs) as [p [Hp Hsel]].
  rewrite Hn in Hsel. simpl in Hsel. subst selected.
  exists v, p. repeat split; auto.
  rewrite length_map.
  rewrite <- (Permutation_length (OrderByDistance.Permuted_sort _)).
  apply length_map.
Qed.

(** ** [remove_content] *)

Lemma filter_none {A : Type} (f : A -> bool) l :
  (forall x, In x l -> f x = false) -> filter f l = [].
Proof.
  induction l as [| a l IH]; intros H; simpl; [reflexivity |].
  rewrite (H a (or_introl eq_refl)). apply IH.
  intros x Hx. apply H. right. exact Hx.
Qed.

(** What a delete does, case by case. *)
Lemma remove_content_run content_id w :
  remove_content content_id w
  = match connect_error w with
    | Some e => (inl (HTTPException 500 ("Database error: " ++ e)), w)
    | None =>
        match read_id content_id (embedding_store w) with
        | inl e => (inl (HTTPException 500 ("Database error: " ++ e)), w)
        | inr id =>
            if Nat.eqb (List.length
                          (filter (fun r => String.eqb (Row.id r) id)
                                  (embedding_store w))) 0
            then (inl (HTTPException 404 "Content not found"), w)
            else (inr (DeleteResponse.Build "Content deleted successfully"
                                            content_id),
                  commit w (filter (fun r => negb (String.eqb (Row.id r) id))
                                   (embedding_store w))
                         (id_seq w))
        end
    end.
Proof.
  unfold remove_content, try_except, bind, as_exception, try_except,
    get_db_connection, raise, execute_delete.
  destruct (connect_error w) as [e |]; [reflexivity |].
  destruct (read_id content_id (embedding_store w)) as [e | id];
    [reflexivity |].
  destruct (Nat.eqb _ 0); reflexivity.
Qed.

Lemma read_id_hit content_id rows row :
  In row rows -> Row.id row = content_id ->
  read_id content_id rows = inr content_id.
Proof.
  intros Hin Hid. unfold read_id.
  assert (H : existsb (fun r => String.eqb (Row.id r) content_id) rows = true).
  { apply existsb_exists. exists row. split; [exact Hin |].
    apply String.eqb_eq. exact Hid. }
  rewrite H. reflexivity.
Qed.

Lemma read_id_miss content_id rows :
  (forall row, In row rows -> Row.id row <> content_id) ->
  read_id content_id rows = id_in content_id.
Proof.
  intros Habs. unfold read_id.
  destruct (existsb (fun r => String.eqb (Row.id r) content_id) rows) eqn:H;
    [| reflexivity].
  apply existsb_exists in H. destruct H as [row [Hin Heq]].
  apply String.eqb_eq in Heq. destruct (Habs row Hin Heq).
Qed.

(** What [read_id] yields is the text itself or what [id_in] makes of it;
    on a store whose ids are canonical it is what [id_in] makes of it. *)
Lemma read_id_cases content_id rows :
  (read_id content_id rows = inr content_id
   /\ exists row, In row rows /\ Row.id row = content_id)
  \/ (read_id content_id rows = id_in content_id
      /\ forall row, In row rows -> Row.id row <> content_id).
Proof.
  unfold read_id.
  destruct (existsb (fun r => String.eqb (Row.id r) content_id) rows) eqn:H.
  - left. split; [reflexivity |].
    apply existsb_exists in H. destruct H as [row [Hin Heq]].
    exists row. split; [exact Hin | apply String.eqb_eq; exact Heq].
  - right. split; [reflexivity |].
    intros row Hin Heq.
    assert (Ht : existsb (fun r => String.eqb (Row.id r) content_id) rows
                 = true).
    { apply existsb_exists. exists row. split; [exact Hin |].
      apply String.eqb_eq. exact Heq. }
    congruence.
Qed.

Lemma read_id_canonical content_id rows :
  ids_canonical rows -> read_id content_id rows = id_in content_id.
Proof.
  intros Hcan.
  destruct (read_id_cases content_id rows) as [[Hr [row [Hin Hid]]] | [Hr _]];
    [| exact Hr].
  rewrite Hr. pose proof (proj1 (Forall_forall _ _) Hcan row Hin) as Hrow.
  simpl in Hrow. rewrite Hid in Hrow. symmetry. exact Hrow.
Qed.

Lemma remove_content_absent content_id w id :
  connect_error w = None ->
  id_in content_id = inr id ->
  (forall row, In row (embedding_store w) ->
     Row.id row <> content_id /\ Row.id row <> id) ->
  remove_content content_id w
  = (inl (HTTPException 404 "Content not found"), w).
Proof.
  intros Hc Hid Habs. rewrite remove_content_run, Hc.
  rewrite read_id_miss by (intros row Hrow; apply (Habs row Hrow)).
  rewrite Hid. rewrite filter_none; [reflexivity |].
  intros row Hrow. apply String.eqb_neq. apply (Habs row Hrow).
Qed.

(** A delete that succeeds leaves a reachable store without the id. *)
Lemma remove_content_removes content_id w w' r :
  remove_content content_id w = (inr r, w') ->
  connect_error w' = None
  /\ forall row, In row (embedding_store w') -> Row.id row <> content_id.
Proof.
  rewrite remove_content_run.
  destruct (connect_error w) as [e |] eqn:Hc; [discriminate |].
  destruct (read_id_cases content_id (embedding_store w))
    as [[Hr _] | [Hr Habs]]; rewrite Hr.
  - destruct (Nat.eqb _ 0); [discriminate |].
    intros H. injection H as _ <-. simpl. split; [exact Hc |].
    intros row Hrow. apply filter_In in Hrow. destruct Hrow as [_ Hrow].
    apply negb_true_iff in Hrow. apply String.eqb_neq. exact Hrow.
  - destruct (id_in content_id) as [e | id]; [discriminate |].
    destruct (Nat.eqb _ 0); [discriminate |].
    intros H. injection H as _ <-. simpl. split; [exact Hc |].
    intros row Hrow. apply filter_In in Hrow. destruct Hrow as [Hrow _].
    apply Habs. exact Hrow.
Qed.

(** A delete that succeeds has removed the rows with the id that was
    read. *)
Lemma remove_content_removed content_id w w' r :
  remove_content content_id w = (inr r, w') ->
  exists id,
    read_id content_id (embedding_store w) = inr id
    /\ embedding_store w'
       = filter (fun r => negb (String.eqb (Row.id r) id)) (embedding_store w).
Proof.
  rewrite remove_content_run.
  destruct (connect_error w) as [e |]; [discriminate |].
  destruct (read_id content_id (embedding_store w)) as [e | id];
    [discriminate |].
  destruct (Nat.eqb _ 0); [discriminate |].
  intros H. injection H as _ <-. exists id. split; reflexivity.
Qed.

(** C4 (amended). A delete of an id that no record has is answered 404
    "Content not found", with the world as it was, when the database is
    reached and the id column takes the text; this is what a second delete
    of the same id meets after a first one succeeded, on a store whose ids
    are canonical. When the database cannot be reached, or the column
    cannot take the text, the delete is answered 500 "Database error: ...",
    again with the world as it was. *)
Theorem delete_absent_not_found content_id w :
  (forall id,
     connect_error w = None ->
     id_in content_id = inr id ->
     (forall row, In row (embedding_store w) ->
        Row.id row <> content_id /\ Row.id row <> id) ->
     remove_content content_id w
     = (inl (HTTPException 404 "Content not found"), w))
  /\ (forall r w1,
        ids_canonical (embedding_store w) ->
        remove_content content_id w = (inr r, w1) ->
        remove_content content_id w1
        = (inl (HTTPException 404 "Content not found"), w1))
  /\ (forall e,
        connect_error w = Some e ->
        remove_content content_id w
        = (inl (HTTPException 500 ("Database error: " ++ e)), w))
  /\ (forall e,
        connect_error w = None ->
        (forall row, In row (embedding_store w) -> Row.id row <> content_id) ->
        id_in content_id = inl e ->
        remove_content content_id w
        = (inl (HTTPException 500 ("Database error: " ++ e)), w)).
Proof.
  split; [| split; [| split]].
  - intros id. apply remove_content_absent.
  - intros r w1 Hcan H.
    destruct (remove_content_removes _ _ _ _ H) as [Hc Habs].
    destruct (remove_content_removed _ _ _ _ H) as [id [Hr Hs]].
    rewrite (read_id_canonical _ _ Hcan) in Hr.
    apply (remove_content_absent _ _ id Hc Hr).
    intros row Hrow. split; [apply Habs; exact Hrow |].
    rewrite Hs in Hrow. apply filter_In in Hrow. destruct Hrow as [_ Hrow].
    apply negb_true_iff in Hrow. apply String.eqb_neq. exact Hrow.
  - intros e Hc. rewrite remove_content_run, Hc. reflexivity.
  - intros e Hc Habs He. rewrite remove_content_run, Hc.
    rewrite (read_id_miss _ _ Habs), He. reflexivity.
Qed.

(** ** [add_content] *)

(** An insert that returns went through the embedder and the connection,
    appended one row and returned its columns. *)
Lemma add_content_inr request w w' r :
  add_content request w = (inr r, w') ->
  exists v w1 row,
    embed (AddContentRequest.content request) w = (inr v, w1)
    /\ connect_error w = None
    /\ row = Row.Build (gen_id (id_seq w))
                       (AddContentRequest.user_id request)
                       (AddContentRequest.content request)
                       v
                       (AddContentRequest.source request)
                       (if truthy_opt_dict (AddContentRequest.metadata request)
                        then AddContentRequest.metadata request else None)
                       (db_now w)
    /\ w' = commit w1 (embedding_store w ++ [row]) (N.succ (id_seq w))
    /\ r = ContentResponse.Build (Row.id row) (Row.user_id row)
                                 (Row.content row) (Row.source row)
                                 (Row.metadata row)
                                 (isoformat (Row.created row)).
Proof.
  unfold add_content, try_except, bind, lift, ret, raise, execute_insert.
  destruct (get_embedding_service w) as [[e | s] w1] eqn:G;
    [discriminate |].
  destruct (encode s (AddContentRequest.content request)) as [e | v] eqn:E;
    [discriminate |].
  destruct (get_embedding_service_store _ _ _ G) as [Hs [Hc [Hi Hn]]].
  unfold get_db_connection. rewrite Hc.
  destruct (connect_error w) as [e |]; [discriminate |].
  intros H. inversion H; subst; clear H.
  exists v, w1. eexists. rewrite <- Hs, <- Hi, <- Hn.
  unfold embed, bind, lift. rewrite G, E.
  repeat split; reflexivity.
Qed.

(** C3. An insert whose metadata is the empty document stores no
    metadata and returns none: the empty document is not kept. *)
Theorem add_content_empty_metadata request w w' r :
  AddContentRequest.metadata request = Some [] ->
  add_content request w = (inr r, w') ->
  ContentResponse.metadata r = None
  /\ exists row,
       embedding_store w' = embedding_store w ++ [row]
       /\ Row.metadata row = None.
Proof.
  intros Hm H.
  destruct (add_content_inr _ _ _ _ H)
    as [v [w1 [row [_ [_ [Hrow [-> ->]]]]]]].
  rewrite Hm in Hrow. simpl in Hrow. subst row. simpl.
  split; [reflexivity |]. eexists. split; reflexivity.
Qed.

(** A metadata document with at least one member is stored and returned
    as given; so is the absence of metadata. *)
Lemma add_content_metadata_kept request w w' r :
  AddContentRequest.metadata request <> Some [] ->
  add_content request w = (inr r, w') ->
  ContentResponse.metadata r = AddContentRequest.metadata request
  /\ exists row,
       embedding_store w' = embedding_store w ++ [row]
       /\ Row.metadata row = AddContentRequest.metadata request.
Proof.
  intros Hm H.
  destruct (add_content_inr _ _ _ _ H)
    as [v [w1 [row [_ [_ [Hrow [-> ->]]]]]]].
  assert (Hk : (if truthy_opt_dict (AddContentRequest.metadata request)
                then AddContentRequest.metadata request else None)
               = AddContentRequest.metadata request).
  { destruct (AddContentRequest.metadata request) as [[| kv d] |];
      simpl; [contradiction Hm | |]; reflexivity. }
  rewrite Hk in Hrow. subst row. simpl.
  split; [reflexivity |]. eexists. split; reflexivity.
Qed.

(** C9 (amended). An insert that returns has appended one record, with
    the id and the timestamp the store assigned, and returns that record's
    id, owner, text, source, metadata and timestamp; the vector is stored
    but is no part of what is returned. *)
Theorem add_content_returns_record request w w' r :
  add_content request w = (inr r, w') ->
  exists row,
    embedding_store w' = embedding_store w ++ [row]
    /\ Row.id row = gen_id (id_seq w)
    /\ Row.created row = db_now w
    /\ Row.user_id row = AddContentRequest.user_id request
    /\ Row.content row = AddContentRequest.content request
    /\ Row.source row = AddContentRequest.source request
    /\ r = ContentResponse.Build (Row.id row) (Row.user_id row)
                                 (Row.content row) (Row.source row)
                                 (Row.metadata row)
                                 (isoformat (Row.created row)).
Proof.
  intros H.
  destruct (add_content_inr _ _ _ _ H)
    as [v [w1 [row [_ [_ [Hrow [-> ->]]]]]]].
  exists row. subst row. simpl. repeat split; reflexivity.
Qed.

(** ** Failures *)

(** C1 (amended). When the embedder fails on the text of an insert or of
    a search, the request raises 500 with the detail "Database error: "
    followed by the embedder's message, which is the reply a storage
    failure gets too; nothing is stored and no vector stands in for the
    missing one. *)
Theorem embedder_failure_surfaces text w w1 e :
  embed text w = (inl e, w1) ->
  (forall request, AddContentRequest.content request = text ->
     add_content request w
     = (inl (HTTPException 500 ("Database error: " ++ e)), w1))
  /\ (forall request, SearchRequest.query request = text ->
       search_content request w
       = (inl (HTTPException 500 ("Database error: " ++ e)), w1))
  /\ embedding_store w1 = embedding_store w.
Proof.
  intros H. split; [| split].
  - intros request <-. revert H.
    unfold embed, add_content, try_except, bind, lift, raise.
    destruct (get_embedding_service w) as [[e0 | s] w0].
    + intros H. inversion H. reflexivity.
    + destruct (encode s (AddContentRequest.content request));
        intros H; inversion H. reflexivity.
  - intros request <-. revert H.
    unfold embed, search_content, try_except, bind, lift, raise.
    destruct (get_embedding_service w) as [[e0 | s] w0].
    + intros H. inversion H. reflexivity.
    + destruct (encode s (SearchRequest.query request));
        intros H; inversion H. reflexivity.
  - apply (embed_store _ _ _ _ H).
Qed.

(** A storage failure is reported in the same form. *)
Lemma storage_failure_surfaces text w w1 v e :
  embed text w = (inr v, w1) ->
  connect_error w = Some e ->
  (forall request, AddContentRequest.content request = text ->
     add_content request w
     = (inl (HTTPException 500 ("Database error: " ++ e)), w1))
  /\ (forall request, SearchRequest.query request = text ->
       search_content request w
       = (inl (HTTPException 500 ("Database error: " ++ e)), w1)).
Proof.
  intros H Hc.
  destruct (embed_store _ _ _ _ H) as [_ [Hc1 _]].
  rewrite Hc in Hc1. revert H.
  unfold embed, bind, lift.
  destruct (get_embedding_service w) as [[e0 | s] w0] eqn:G;
    [discriminate |].
  destruct (encode s text) as [e0 | v0] eqn:E; [discriminate |].
  intros H. inversion H; subst; clear H.
  split; intros request <-.
  - unfold add_content, try_except, bind, lift, raise.
    rewrite G, E. unfold get_db_connection. rewrite Hc1. reflexivity.
  - unfold search_content, try_except, bind, lift, raise.
    rewrite G, E. unfold get_db_connection. rewrite Hc1. reflexivity.
Qed.

(** ** [health_check] *)

(** C2 (amended). The health operation probes the store only: it answers
    healthy/connected when the store can be reached and unhealthy with
    the error otherwise, leaves the world as it is, and answers the same
    in two worlds that agree on the store, whatever the embedder's
    state. *)
Theorem health_reports_store_only w :
  health_check w
  = (inr (match connect_error w with
          | None => HealthResponse.Build "healthy" "connected"
          | Some e => HealthResponse.Build "unhealthy" ("error: " ++ e)
          end), w)
  /\ forall w2, connect_error w2 = connect_error w ->
       fst (health_check w2) = fst (health_check w).
Proof.
  assert (Hh : forall w0, health_check w0
    = (inr (match connect_error w0 with
            | None => HealthResponse.Build "healthy" "connected"
            | Some e => HealthResponse.Build "unhealthy" ("error: " ++ e)
            end), w0)).
  { intros w0.
    unfold health_check, try_except, bind, get_db_connection, ret.
    destruct (connect_error w0); reflexivity. }
  split; [apply Hh |].
  intros w2 H2. rewrite !Hh. simpl. rewrite H2. reflexivity.
Qed.

(** ** The handlers return

    With the embedder and the store at work, each handler produces its
    result. *)

Lemma add_content_returns request w w1 v :
  embed (AddContentRequest.content request) w = (inr v, w1) ->
  connect_error w = None ->
  exists r w', add_content request w = (inr r, w').
Proof.
  intros H Hc.
  destruct (embed_store _ _ _ _ H) as [_ [Hc1 _]]. rewrite Hc in Hc1.
  revert H. unfold embed, add_content, try_except, bind, lift, ret.
  destruct (get_embedding_service w) as [[e0 | s] w0] eqn:G;
    [discriminate |].
  destruct (encode s (AddContentRequest.content request)) as [e0 | v0];
    [discriminate |].
  intros H. inversion H; subst; clear H.
  unfold get_db_connection. rewrite Hc1. simpl. eauto.
Qed.

Lemma search_content_returns request w w1 v p :
  embed (SearchRequest.query request) w = (inr v, w1) ->
  connect_error w = None ->
  where_clause (search_filters request v) = inr p ->
  (forall n, SearchRequest.limit request = Some n -> (0 <= n)%Z) ->
  exists results, search_content request w = (inr results, w1).
Proof.
  intros H Hc Hp Hn.
  destruct (embed_store _ _ _ _ H) as [_ [Hc1 _]]. rewrite Hc in Hc1.
  revert H. unfold embed, search_content, try_except, bind, lift, ret.
  destruct (get_embedding_service w) as [[e0 | s] w0] eqn:G;
    [discriminate |].
  destruct (encode s (SearchRequest.query request)) as [e0 | v0];
    [discriminate |].
  intros H. inversion H; subst; clear H.
  unfold get_db_connection. rewrite Hc1.
  unfold execute_select. rewrite Hp.
  destruct (SearchRequest.limit request) as [n |]; [| eauto].
  destruct (Z.ltb_spec n 0) as [Hlt | _]; [| eauto].
  specialize (Hn n eq_refl). lia.
Qed.

Lemma remove_content_returns content_id w row :
  connect_error w = None ->
  In row (embedding_store w) ->
  Row.id row = content_id ->
  exists w', remove_content content_id w
             = (inr (DeleteResponse.Build "Content deleted successfully"
                                          content_id), w').
Proof.
  intros Hc Hin Hid.
  rewrite remove_content_run, Hc, (read_id_hit _ _ _ Hin Hid).
  assert (Hf : In row (filter (fun r => String.eqb (Row.id r) content_id)
                              (embedding_store w))).
  { apply filter_In. split; [exact Hin |]. apply String.eqb_eq. exact Hid. }
  destruct (filter _ (embedding_store w)) as [| x l]; [destruct Hf |].
  simpl. eauto.
Qed.

(** C10. A [user_id] or [source] filter given as the empty string is
    treated as an omitted one: the search is the same. *)
Theorem search_empty_filter_omitted query limit user_id source
    distance_threshold created_after created_before w :
  search_content
    (SearchRequest.Build query limit (Some "") source distance_threshold
                         created_after created_before) w
  = search_content
      (SearchRequest.Build query limit None source distance_threshold
                           created_after created_before) w
  /\ search_content
       (SearchRequest.Build query limit user_id (Some "") distance_threshold
                            created_after created_before) w
     = search_content
         (SearchRequest.Build query limit user_id None distance_threshold
                              created_after created_before) w.
Proof.
  split; reflexivity.
Qed.

End Properties.

(** * The handlers at work on the example store *)

(** C1, at a world where the model cannot be loaded. *)
Lemma embedder_failure_surfaces_witness :
  embed "hello world" Example.world_no_model
  = (inl "unavailable", Example.world_no_model)
  /\ @add_content Example.externals (Example.add_hello None)
                  Example.world_no_model
     = (inl (HTTPException 500 "Database error: unavailable"),
        Example.world_no_model).
Proof.
  assert (H : embed "hello world" Example.world_no_model
              = (inl "unavailable", Example.world_no_model)) by reflexivity.
  split; [exact H |].
  exact (proj1 (@embedder_failure_surfaces Example.externals _ _ _ _ H)
               (Example.add_hello None) eq_refl).
Defined.

(** C1, as the specification has it, fails: a model that cannot be loaded
    and a database that cannot be reached give the same error, so no
    classification of errors tells the two apart. *)
Lemma embedding_errors_not_classified :
  ~ @embedding_errors_classified Example.externals.
Proof.
  intros [classify H].
  destruct (H Example.world_no_model Example.world_no_model
              (Example.add_hello None)
              (HTTPException 500 "Database error: unavailable") eq_refl)
    as [Hfail _].
  destruct (H Example.world_no_db
              (snd (@add_content Example.externals (Example.add_hello None)
                                 Example.world_no_db))
              (Example.add_hello None)
              (HTTPException 500 "Database error: unavailable") eq_refl)
    as [_ Hok].
  assert (Ht : classify (HTTPException 500 "Database error: unavailable")
               = true).
  { apply Hfail. exists "unavailable", Example.world_no_model. reflexivity. }
  assert (Hf : classify (HTTPException 500 "Database error: unavailable")
               = false).
  { apply Hok. intros [e [w' He]]. vm_compute in He. discriminate He. }
  congruence.
Qed.

(** C2, at two worlds that differ in the model only. *)
Lemma health_reports_store_only_witness :
  connect_error Example.world_no_model = connect_error Example.world
  /\ fst (health_check Example.world_no_model)
     = fst (health_check Example.world).
Proof.
  split; [reflexivity |].
  exact (proj2 (health_reports_store_only Example.world)
               Example.world_no_model eq_refl).
Defined.

(** C2, as the specification has it, fails: the health result is the same
    whether the model is loaded or cannot be loaded. *)
Lemma health_does_not_report_embedder :
  ~ health_reports_embedder.
Proof.
  intros [ready H].
  pose proof (H Example.world Example.world
                (HealthResponse.Build "healthy" "connected") eq_refl) as Hup.
  pose proof (H Example.world_no_model Example.world_no_model
                (HealthResponse.Build "healthy" "connected") eq_refl) as Hdown.
  assert (Hr : embedder_ready Example.world).
  { eexists. eexists. reflexivity. }
  apply Hup in Hr. apply Hdown in Hr.
  destruct Hr as [s [w' Hs]]. vm_compute in Hs. discriminate Hs.
Qed.

(** C3, at an insert with the metadata [{}]. *)
Lemma add_content_empty_metadata_witness :
  let request := Example.add_hello (Some []) in
  let out := @add_content Example.externals request Example.world in
  let r := ContentResponse.Build "id-2" "u1" "hello world" None None
                                 Example.t2025 in
  AddContentRequest_validate Example.body_empty_metadata = Some request
  /\ AddContentRequest.metadata request = Some []
  /\ fst out = inr r
  /\ ContentResponse.metadata r = None
  /\ exists row,
       embedding_store (snd out) = embedding_store Example.world ++ [row]
       /\ Row.metadata row = None.
Proof.
  intros request out r.
  assert (H : out = (inr r, snd out)) by reflexivity.
  split; [reflexivity |]. split; [reflexivity |]. split; [reflexivity |].
  exact (@add_content_empty_metadata Example.externals request Example.world
           (snd out) r eq_refl H).
Defined.

(** C4, at an id that was never stored (written in upper case), at a
    second delete, at an unreachable database and at a text that is no
    id. *)
Lemma delete_absent_not_found_witness :
  @remove_content Example.externals "ID-7" Example.world
  = (inl (HTTPException 404 "Content not found"), Example.world)
  /\ (let w1 := snd (@remove_content Example.externals "id-0" Example.world) in
      fst (@remove_content Example.externals "id-0" Example.world)
      = inr (DeleteResponse.Build "Content deleted successfully" "id-0")
      /\ @remove_content Example.externals "id-0" w1
         = (inl (HTTPException 404 "Content not found"), w1))
  /\ @remove_content Example.externals "id-7" Example.world_no_db
     = (inl (HTTPException 500 "Database error: unavailable"),
        Example.world_no_db)
  /\ @remove_content Example.externals "not-an-id" Example.world
     = (inl (HTTPException 500
               "Database error: invalid input syntax for type id: not-an-id"),
        Example.world).
Proof.
  split; [| split; [| split]].
  - apply (proj1 (@delete_absent_not_found Example.externals "ID-7"
                    Example.world) "id-7").
    + reflexivity.
    + reflexivity.
    + intros row [<- | [<- | []]]; split; discriminate.
  - simpl. split; [reflexivity |].
    apply (proj1 (proj2 (@delete_absent_not_found Example.externals "id-0"
                           Example.world))
                 (DeleteResponse.Build "Content deleted successfully" "id-0")).
    + repeat constructor.
    + reflexivity.
  - apply (proj1 (proj2 (proj2 (@delete_absent_not_found Example.externals
                                  "id-7" Example.world_no_db)))).
    reflexivity.
  - apply (proj2 (proj2 (proj2 (@delete_absent_not_found Example.externals
                                  "not-an-id" Example.world)))).
    + reflexivity.
    + intros row [<- | [<- | []]]; discriminate.
    + reflexivity.
Defined.

(** C4, as the specification has it, fails: while the database cannot be
    reached, the delete of an id that no record has is answered 500
    "Database error: ...", not 404. *)
Lemma delete_absent_may_be_500 :
  ~ @absent_delete_not_found Example.externals.
Proof.
  intros H.
  assert (Habs : forall row,
            In row (embedding_store Example.world_no_db) ->
            Row.id row <> "id-7").
  { intros row [<- | [<- | []]]; discriminate. }
  specialize (H Example.world_no_db "id-7" Habs).
  vm_compute in H. discriminate H.
Qed.

(** C5, at a search with the default threshold 0.7: the record at
    distance 2 is left out. *)
Lemma search_threshold_exclusion_witness :
  let request := Example.search_for (Some 10%Z) None None in
  let out := @search_content Example.externals request Example.world in
  fst out = inr [@to_search_result Example.externals (Example.alice, 0)]
  /\ ~ In (@to_search_result Example.externals (Example.bob, 2))
          [@to_search_result Example.externals (Example.alice, 0)].
Proof.
  intros request out.
  assert (H : out = (inr [@to_search_result Example.externals
                                            (Example.alice, 0)], snd out))
    by reflexivity.
  split; [reflexivity |].
  refine (proj2 (@search_threshold_exclusion Example.externals _ _ _ _ H
                   (7 # 10) eq_refl) [1] Example.bob _ _ _).
  - reflexivity.
  - simpl. auto.
  - intros Hle. vm_compute in Hle. apply Hle. reflexivity.
Defined.

(** C6, at a search that returns both records. *)
Lemma search_sorted_by_distance_witness :
  let request := Example.search_for (Some 10%Z) None (Some 2) in
  let out := @search_content Example.externals request Example.world in
  let results := [@to_search_result Example.externals (Example.alice, 0);
                  @to_search_result Example.externals (Example.bob, 2)] in
  fst out = inr results /\ Sorted ascending results.
Proof.
  intros request out results.
  assert (H : out = (inr results, snd out)) by reflexivity.
  split; [reflexivity |].
  exact (proj1 (@search_sorted_by_distance Example.externals _ _ _ _ H)).
Defined.

(** C7. The body [{"query": ..., "limit": null}] is a valid search request
    whose limit is [None]; on a store of 101 qualifying records the search
    returns all 101, more than any limit in the range [1,100]. *)
Theorem search_null_limit_unbounded :
  SearchRequest_validate Example.body_null_limit
  = Some (Example.search_for None None None)
  /\ exists results w',
       @search_content Example.externals (Example.search_for None None None)
                       Example.world_101
       = (inr results, w')
       /\ List.length results = 101%nat.
Proof.
  split; [reflexivity |].
  destruct (@search_content Example.externals
              (Example.search_for None None None) Example.world_101)
    as [[e | results] w'] eqn:E.
  - vm_compute in E. discriminate E.
  - exists results, w'. split; [reflexivity |].
    apply (f_equal (fun out => match fst out with
                               | inr l => List.length l
                               | inl _ => 0%nat
                               end)) in E.
    vm_compute in E. symmetry. exact E.
Qed.

(** C9, at an insert with metadata. *)
Lemma add_content_returns_record_witness :
  let request := Example.add_hello (Some [("lang", JStr "en")]) in
  let out := @add_content Example.externals request Example.world in
  let r := ContentResponse.Build "id-2" "u1" "hello world" None
                                 (Some [("lang", JStr "en")])
                                 Example.t2025 in
  fst out = inr r
  /\ exists row,
       embedding_store (snd out) = embedding_store Example.world ++ [row]
       /\ Row.id row = "id-2"
       /\ Row.created row = 1735689600%Z
       /\ Row.user_id row = "u1"
       /\ Row.content row = "hello world"
       /\ Row.source row = None
       /\ r = ContentResponse.Build (Row.id row) (Row.user_id row)
                                    (Row.content row) (Row.source row)
                                    (Row.metadata row)
                                    (Example.show_timestamp (Row.created row)).
Proof.
  intros request out r.
  assert (H : out = (inr r, snd out)) by reflexivity.
  split; [reflexivity |].
  exact (@add_content_returns_record Example.externals _ _ _ _ H).
Defined.

(** C9, as the specification has it, fails: two models that embed a text
    differently lead to the same returned record, so the stored vector
    cannot be read from it. *)
Lemma response_omits_vector :
  ~ @response_carries_vector Example.externals.
Proof.
  intros [vector_of H].
  pose (r := ContentResponse.Build "id-2" "u1" "hello world" None None
                                   Example.t2025).
  destruct (H Example.world
              (snd (@add_content Example.externals (Example.add_hello None)
                                 Example.world))
              (Example.add_hello None) r eq_refl) as [row1 [Hs1 Hv1]].
  destruct (H Example.world_mirror
              (snd (@add_content Example.externals (Example.add_hello None)
                                 Example.world_mirror))
              (Example.add_hello None) r eq_refl) as [row2 [Hs2 Hv2]].
  vm_compute in Hs1. vm_compute in Hs2.
  inversion Hs1; subst row1. inversion Hs2; subst row2.
  simpl in Hv1, Hv2. rewrite Hv1 in Hv2. discriminate Hv2.
Qed.

(** * Further properties of the handlers *)

Section Coverage.
Context {X : Externals}.

(** ** The service instance *)

Lemma get_embedding_service_cached w s w1 :
  get_embedding_service w = (inr s, w1) -> _embedding_service w1 = Some s.
Proof.
  unfold get_embedding_service.
  destruct (_embedding_service w) as [s0 |] eqn:C.
  - intros H. inversion H; subst. exact C.
  - destruct (EmbeddingService_init w); intros H; inversion H; subst.
    reflexivity.
Qed.

Lemma get_embedding_service_again w :
  get_embedding_service (snd (get_embedding_service w))
  = get_embedding_service w.
Proof.
  unfold get_embedding_service.
  destruct (_embedding_service w) as [s0 |] eqn:C; simpl.
  - rewrite C. reflexivity.
  - unfold EmbeddingService_init.
    destruct (load_model w) as [e | m] eqn:L; simpl.
    + rewrite C. unfold EmbeddingService_init. rewrite L. reflexivity.
    + reflexivity.
Qed.

Lemma embedding_service_loaded_once_aux w s w1 :
  get_embedding_service w = (inr s, w1) ->
  forall w2, _embedding_service w2 = _embedding_service w1 ->
    get_embedding_service w2 = (inr s, w2).
Proof.
  intros H w2 H2. pose proof (get_embedding_service_cached _ _ _ H) as C.
  unfold get_embedding_service. rewrite H2, C. reflexivity.
Qed.

(** X1. Once [get_embedding_service] has produced a service, that service
    is the cached instance, and every later call in a world that holds it
    returns it and changes nothing, whatever loading the model would do
    then. *)
Theorem embedding_service_loaded_once w s w1 :
  get_embedding_service w = (inr s, w1) ->
  _embedding_service w1 = Some s
  /\ get_embedding_service w1 = (inr s, w1)
  /\ forall w2, _embedding_service w2 = _embedding_service w1 ->
       get_embedding_service w2 = (inr s, w2).
Proof.
  intros H. pose proof (get_embedding_service_cached _ _ _ H) as C.
  assert (Hc : forall w2, _embedding_service w2 = _embedding_service w1 ->
                 get_embedding_service w2 = (inr s, w2)).
  { intros w2 H2. unfold get_embedding_service. rewrite H2, C. reflexivity. }
  repeat split; auto.
Qed.

(** X2. When [get_embedding_service] fails, the failure is that of loading
    the model, nothing is cached and the world is as before, so the next
    call loads again: it succeeds as soon as the model can be loaded. *)
Theorem embedding_service_failure_not_cached w e w1 :
  get_embedding_service w = (inl e, w1) ->
  w1 = w
  /\ _embedding_service w = None
  /\ load_model w = inl e
  /\ forall w2 m,
       _embedding_service w2 = _embedding_service w1 ->
       load_model w2 = inr m ->
       exists s, get_embedding_service w2 = (inr s, set_embedding_service w2 s)
                 /\ model s = m.
Proof.
  unfold get_embedding_service, EmbeddingService_init.
  destruct (_embedding_service w) as [s0 |] eqn:C; [discriminate |].
  destruct (load_model w) as [e0 | m0] eqn:L; [| discriminate].
  intros H. inversion H; subst. repeat split; auto.
  intros w2 m C2 L2. rewrite C2, C, L2. eexists. split; reflexivity.
Qed.

(** ** Start-up *)

Lemma lifespan_startup_run w :
  lifespan_startup w = (inr tt, snd (get_embedding_service w)).
Proof.
  unfold lifespan_startup, try_except, bind, ret, get_db_connection.
  destruct (connect_error w) as [c |];
    destruct (get_embedding_service w) as [[e | s] w1]; reflexivity.
Qed.

(** X3. Start-up returns normally whether or not the database can be
    reached and the model loaded, and leaves the store, the connection
    state and the id sequence as they were; when the model loads, the
    service is cached, and when it does not, the world is unchanged. *)
Theorem lifespan_startup_survives w :
  exists w',
    lifespan_startup w = (inr tt, w')
    /\ embedding_store w' = embedding_store w
    /\ connect_error w' = connect_error w
    /\ id_seq w' = id_seq w
    /\ (forall m, _embedding_service w = None -> load_model w = inr m ->
          exists s, _embedding_service w' = Some s /\ model s = m
                    /\ get_dimension s = get_sentence_embedding_dimension m)
    /\ (forall e, _embedding_service w = None -> load_model w = inl e ->
          w' = w).
Proof.
  exists (snd (get_embedding_service w)).
  split; [apply lifespan_startup_run |].
  destruct (get_embedding_service w) as [r w1] eqn:G. simpl.
  destruct (get_embedding_service_store _ _ _ G) as [Hs [Hc [Hi _]]].
  repeat split; auto.
  - intros m C L. revert G.
    unfold get_embedding_service, EmbeddingService_init. rewrite C, L.
    intros G. inversion G; subst. simpl. eexists. repeat split.
  - intros e C L. revert G.
    unfold get_embedding_service, EmbeddingService_init. rewrite C, L.
    intros G. inversion G; subst. reflexivity.
Qed.

(** X4. Loading the model at start-up changes no outcome: an insert or a
    search run after start-up gives the result and the final world it
    gives without start-up. *)
Theorem startup_preload_transparent w w' :
  lifespan_startup w = (inr tt, w') ->
  (forall request, add_content request w' = add_content request w)
  /\ (forall request, search_content request w' = search_content request w).
Proof.
  rewrite lifespan_startup_run. intros H. inversion H; subst w'; clear H.
  pose proof (get_embedding_service_again w) as A.
  split; intros request.
  - unfold add_content, try_except, bind. rewrite A. reflexivity.
  - unfold search_content, try_except, bind. rewrite A. reflexivity.
Qed.

(** ** What the handlers change *)

(** X5. A search, whether it returns or raises, leaves the stored rows,
    the id sequence and the connection state as they were; when it raises,
    it raises 500 with a detail that starts "Database error: ". *)
Theorem search_content_read_only request w r w' :
  search_content request w = (r, w') ->
  embedding_store w' = embedding_store w
  /\ id_seq w' = id_seq w
  /\ connect_error w' = connect_error w
  /\ forall e, r = inl e ->
       exists msg, e = HTTPException 500 ("Database error: " ++ msg).
Proof.
  assert (Hraise : forall msg e,
            @inl exn (list SearchResult.t)
                 (HTTPException 500 ("Database error: " ++ msg)) = inl e ->
            exists msg', e = HTTPException 500 ("Database error: " ++ msg')).
  { intros msg e He. exists msg. congruence. }
  unfold search_content, try_except, bind, lift, ret, raise.
  destruct (get_embedding_service w) as [[e0 | s] w1] eqn:G;
    destruct (get_embedding_service_store _ _ _ G) as [Hs [Hc [Hi _]]].
  - intros H. injection H as <- <-. repeat split; auto. apply Hraise.
  - destruct (encode s (SearchRequest.query request)) as [e0 | v].
    + intros H. injection H as <- <-. repeat split; auto. apply Hraise.
    + unfold get_db_connection.
      destruct (connect_error w1) as [e0 |] eqn:Hce.
      * intros H. injection H as <- <-.
        repeat split; try congruence. apply Hraise.
      * destruct (execute_select v (search_filters request v)
                    (SearchRequest.limit request) (embedding_store w1));
          intros H; injection H as <- <-; repeat split; try congruence.
        apply Hraise.
Qed.

(** X6. An insert that raises stores nothing: the rows and the id sequence
    are as before, and the error is 500 with a detail that starts
    "Database error: ". *)
Theorem add_content_failure_persists_nothing request w e w' :
  add_content request w = (inl e, w') ->
  embedding_store w' = embedding_store w
  /\ id_seq w' = id_seq w
  /\ exists msg, e = HTTPException 500 ("Database error: " ++ msg).
Proof.
  unfold add_content, try_except, bind, lift, ret, raise, execute_insert.
  destruct (get_embedding_service w) as [[e0 | s] w1] eqn:G;
    destruct (get_embedding_service_store _ _ _ G) as [Hs [Hc [Hi _]]].
  - intros H. repeat split; [congruence | congruence |].
    exists e0. congruence.
  - destruct (encode s (AddContentRequest.content request)) as [e0 | v].
    + intros H. repeat split; [congruence | congruence |].
      exists e0. congruence.
    + unfold get_db_connection.
      destruct (connect_error w1) as [e0 |]; intros H; [| discriminate H].
      repeat split; [congruence | congruence |].
      exists e0. congruence.
Qed.

(** X7. An insert that returns has appended exactly one row after the
    rows already stored; its text is the request's and its vector is what
    the cached service makes of that text; the id sequence has advanced by
    one. *)
Theorem add_content_stores_encoding request w r w' :
  add_content request w = (inr r, w') ->
  exists s row,
    _embedding_service w' = Some s
    /\ embedding_store w' = embedding_store w ++ [row]
    /\ Row.content row = AddContentRequest.content request
    /\ encode s (Row.content row) = inr (Row.embedding row)
    /\ id_seq w' = N.succ (id_seq w).
Proof.
  unfold add_content, try_except, bind, lift, ret, raise, execute_insert.
  destruct (get_embedding_service w) as [[e0 | s] w1] eqn:G; [discriminate |].
  destruct (get_embedding_service_store _ _ _ G) as [Hs [Hc [Hi _]]].
  pose proof (get_embedding_service_cached _ _ _ G) as C.
  destruct (encode s (AddContentRequest.content request)) as [e0 | v] eqn:E;
    [discriminate |].
  unfold get_db_connection.
  destruct (connect_error w1) as [e0 |]; [discriminate |].
  intros H. inversion H; subst; clear H. simpl.
  exists s. eexists. rewrite Hs, Hi. repeat split; auto.
Qed.

(** X8. With the service [s] cached, the handlers keep the store in step
    with it: if every stored vector is what [s] makes of the stored text,
    this still holds after an insert, a delete or a search, whatever their
    outcome, and [s] remains the cached service. *)
Theorem handlers_keep_vectors_matching w s :
  _embedding_service w = Some s ->
  vectors_match s (embedding_store w) ->
  (forall request r w', add_content request w = (r, w') ->
     _embedding_service w' = Some s
     /\ vectors_match s (embedding_store w'))
  /\ (forall content_id r w', remove_content content_id w = (r, w') ->
       _embedding_service w' = Some s
       /\ vectors_match s (embedding_store w'))
  /\ (forall request r w', search_content request w = (r, w') ->
       _embedding_service w' = Some s
       /\ vectors_match s (embedding_store w')).
Proof.
  intros C V.
  assert (G : get_embedding_service w = (inr s, w)).
  { unfold get_embedding_service. rewrite C. reflexivity. }
  split; [| split].
  - intros request r w'.
    unfold add_content, try_except, bind, lift, ret, raise, execute_insert.
    rewrite G.
    destruct (encode s (AddContentRequest.content request)) as [e0 | v] eqn:E.
    + intros H. injection H as <- <-. auto.
    + unfold get_db_connection.
      destruct (connect_error w) as [e0 |]; intros H; injection H as <- <-;
        simpl; [auto |].
      split; [exact C |].
      apply Forall_app. split; [exact V |].
      constructor; [exact E | constructor].
  - intros content_id r w'. rewrite remove_content_run.
    destruct (connect_error w) as [e0 |].
    + intros H. injection H as <- <-. auto.
    + destruct (read_id content_id (embedding_store w)) as [e0 | id].
      * intros H. injection H as <- <-. auto.
      * destruct (Nat.eqb _ 0); intros H; injection H as <- <-; simpl;
          [auto |].
        split; [exact C |].
        apply Forall_forall. intros row Hrow.
        apply filter_In in Hrow. destruct Hrow as [Hrow _].
        exact (proj1 (Forall_forall _ _) V row Hrow).
  - intros request r w'.
    unfold search_content, try_except, bind, lift, ret, raise.
    rewrite G.
    destruct (encode s (SearchRequest.query request)) as [e0 | v].
    + intros H. injection H as <- <-. auto.
    + unfold get_db_connection.
      destruct (connect_error w) as [e0 |].
      * intros H. injection H as <- <-. auto.
      * destruct (execute_select v (search_filters request v)
                    (SearchRequest.limit request) (embedding_store w));
          intros H; injection H as <- <-; auto.
Qed.

(** ** Delete *)

(** X9. On a reachable store, deleting an id that some record has returns
    the confirmation with that id; the store then holds exactly the
    records with another id, in their former order, and the id sequence is
    as before. *)
Theorem remove_content_present content_id w row :
  connect_error w = None ->
  In row (embedding_store w) ->
  Row.id row = content_id ->
  exists w',
    remove_content content_id w
    = (inr (DeleteResponse.Build "Content deleted successfully" content_id),
       w')
    /\ embedding_store w'
       = filter (fun r => negb (String.eqb (Row.id r) content_id))
                (embedding_store w)
    /\ (forall r, In r (embedding_store w') <->
                  In r (embedding_store w) /\ Row.id r <> content_id)
    /\ id_seq w' = id_seq w.
Proof.
  intros Hc Hin Hid.
  rewrite remove_content_run, Hc, (read_id_hit _ _ _ Hin Hid).
  assert (Hf : In row (filter (fun r => String.eqb (Row.id r) content_id)
                              (embedding_store w))).
  { apply filter_In. split; [exact Hin |]. apply String.eqb_eq. exact Hid. }
  destruct (filter (fun r => String.eqb (Row.id r) content_id)
                   (embedding_store w)) as [| x l]; [destruct Hf |].
  simpl. eexists. split; [reflexivity |]. simpl.
  split; [reflexivity |]. split; [| reflexivity].
  intros r. rewrite filter_In, negb_true_iff, String.eqb_neq. tauto.
Qed.



(** X11. While the database cannot be reached, a delete raises 500 with
    the connection error and changes nothing, and every insert and every
    search raises 500 with a "Database error: " detail and leaves the
    stored rows as they are. *)
Theorem unreachable_database_500 w e :
  connect_error w = Some e ->
  (forall content_id,
     remove_content content_id w
     = (inl (HTTPException 500 ("Database error: " ++ e)), w))
  /\ (forall request,
       exists msg w',
         add_content request w
         = (inl (HTTPException 500 ("Database error: " ++ msg)), w')
         /\ embedding_store w' = embedding_store w)
  /\ (forall request,
       exists msg w',
         search_content request w
         = (inl (HTTPException 500 ("Database error: " ++ msg)), w')
         /\ embedding_store w' = embedding_store w).
Proof.
  intros Hc. split; [| split].
  - intros content_id. rewrite remove_content_run, Hc. reflexivity.
  - intros request.
    unfold add_content, try_except, bind, lift, ret, raise.
    destruct (get_embedding_service w) as [[e0 | s] w1] eqn:G;
      destruct (get_embedding_service_store _ _ _ G) as [Hs [Hc1 _]];
      [eauto |].
    destruct (encode s (AddContentRequest.content request)) as [e0 | v];
      [eauto |].
    unfold get_db_connection. rewrite Hc1, Hc. eauto.
  - intros request.
    unfold search_content, try_except, bind, lift, ret, raise.
    destruct (get_embedding_service w) as [[e0 | s] w1] eqn:G;
      destruct (get_embedding_service_store _ _ _ G) as [Hs [Hc1 _]];
      [eauto |].
    destruct (encode s (SearchRequest.query request)) as [e0 | v];
      [eauto |].
    unfold get_db_connection. rewrite Hc1, Hc. eauto.
Qed.

(** ** Which rows a search selects *)

Lemma clause_if_In_iff o mk c :
  In c (clause_if o mk) <-> exists s, supplied o s /\ c = mk s.
Proof.
  unfold clause_if, supplied. destruct o as [[| a s] |]; simpl.
  - split; [intros [] | intros [s [[Hs Hne] _]]].
    inversion Hs; subst. congruence.
  - split.
    + intros [<- | []]. eexists. split; [split; [reflexivity | discriminate] |].
      reflexivity.
    + intros [s' [[Hs _] ->]]. inversion Hs; subst. auto.
  - split; [intros [] | intros [s [[Hs _] _]]]. discriminate.
Qed.

Lemma search_filters_In request v c :
  In c (search_filters request v) <->
  (exists u, supplied (SearchRequest.user_id request) u /\ c = UserIdEq u)
  \/ (exists s, supplied (SearchRequest.source request) s /\ c = SourceEq s)
  \/ (exists s, supplied (SearchRequest.created_after request) s
                /\ c = CreatedGe s)
  \/ (exists s, supplied (SearchRequest.created_before request) s
                /\ c = CreatedLe s)
  \/ c = DistanceLe v (effective_threshold request).
Proof.
  unfold search_filters. rewrite !in_app_iff, !clause_if_In_iff. simpl.
  intuition (subst; auto).
Qed.

Lemma where_clause_all filters p r :
  where_clause filters = inr p ->
  (forall c pc, In c filters -> compile_clause c = inr pc -> pc r = true) ->
  p r = true.
Proof.
  revert p. induction filters as [| c cs IH]; intros p H Hc; simpl in H.
  - inversion H. reflexivity.
  - destruct (compile_clause c) as [e | p0] eqn:E0; [discriminate |].
    destruct (where_clause cs) as [e | ps] eqn:Es; [discriminate |].
    inversion H; subst; clear H.
    rewrite (Hc c p0 (or_introl eq_refl) E0). simpl.
    apply (IH ps eq_refl).
    intros c' pc Hin. apply Hc. right. exact Hin.
Qed.

(** The WHERE clause of a search holds of a row exactly when the row meets
    the supplied filters and the threshold. *)
Lemma search_selects_iff request v p row :
  where_clause (search_filters request v) = inr p ->
  (p row = true <-> passes_filters request v row).
Proof.
  intros Hp. split.
  - intros Hrow.
    assert (Hc : forall c, In c (search_filters request v) ->
                   exists pc, compile_clause c = inr pc /\ pc row = true).
    { intros c Hin. destruct (where_clause_In _ _ Hp c Hin) as [pc [Ec Hpc]].
      exists pc. auto. }
    unfold passes_filters. repeat split.
    + intros u Hu.
      destruct (Hc (UserIdEq u)) as [pc [Ec Hpc]].
      { apply search_filters_In. left. eauto. }
      simpl in Ec. inversion Ec; subst pc. apply String.eqb_eq. exact Hpc.
    + intros s Hs.
      destruct (Hc (SourceEq s)) as [pc [Ec Hpc]].
      { apply search_filters_In. right. left. eauto. }
      simpl in Ec. inversion Ec; subst pc.
      destruct (Row.source row) as [s' |]; [| discriminate].
      apply String.eqb_eq in Hpc. congruence.
    + intros s Hs.
      destruct (Hc (CreatedGe s)) as [pc [Ec Hpc]].
      { apply search_filters_In. right. right. left. eauto. }
      simpl in Ec. destruct (timestamptz_in s) as [e | t]; [discriminate |].
      inversion Ec; subst pc. exists t. split; [reflexivity |].
      apply Z.leb_le. exact Hpc.
    + intros s Hs.
      destruct (Hc (CreatedLe s)) as [pc [Ec Hpc]].
      { apply search_filters_In. do 3 right. left. eauto. }
      simpl in Ec. destruct (timestamptz_in s) as [e | t]; [discriminate |].
      inversion Ec; subst pc. exists t. split; [reflexivity |].
      apply Z.leb_le. exact Hpc.
    + destruct (Hc (DistanceLe v (effective_threshold request)))
        as [pc [Ec Hpc]].
      { apply search_filters_In. do 4 right. reflexivity. }
      simpl in Ec. inversion Ec; subst pc. apply Qle_bool_iff. exact Hpc.
  - intros [Hu [Hs [Ha [Hb Hd]]]].
    apply (where_clause_all _ _ _ Hp).
    intros c pc Hin Ec. apply search_filters_In in Hin.
    destruct Hin as [[u [Su ->]] | [[s [Ss ->]] | [[s [Ss ->]]
                    | [[s [Ss ->]] | ->]]]];
      simpl in Ec.
    + inversion Ec; subst pc. apply String.eqb_eq. auto.
    + inversion Ec; subst pc. rewrite (Hs s Ss). apply String.eqb_refl.
    + destruct (Ha s Ss) as [t [Et Ht]]. rewrite Et in Ec.
      inversion Ec; subst pc. apply Z.leb_le. exact Ht.
    + destruct (Hb s Ss) as [t [Et Ht]]. rewrite Et in Ec.
      inversion Ec; subst pc. apply Z.leb_le. exact Ht.
    + inversion Ec; subst pc. apply Qle_bool_iff. exact Hd.
Qed.

Lemma embed_search_content request w w' results v w1 :
  search_content request w = (inr results, w') ->
  embed (SearchRequest.query request) w = (inr v, w1) ->
  exists selected,
    execute_select v (search_filters request v) (SearchRequest.limit request)
                   (embedding_store w) = inr selected
    /\ results = map to_search_result selected.
Proof.
  intros H Hv.
  destruct (search_content_inr _ _ _ _ H) as [v0 [selected [Hv0 [_ Hsel]]]].
  rewrite Hv in Hv0. inversion Hv0; subst v0. eauto.
Qed.

(** X12. Every result of a search is a stored record, shown with its
    distance to the query vector, that meets each supplied filter (owner,
    source, and the two time bounds, both inclusive) and the effective
    threshold. *)
Theorem search_results_are_matching_rows request w w' results :
  search_content request w = (inr results, w') ->
  exists v,
    embed (SearchRequest.query request) w = (inr v, w')
    /\ forall r, In r results ->
         exists row,
           In row (embedding_store w)
           /\ r = result_of v row
           /\ passes_filters request v row.
Proof.
  intros H.
  destruct (search_content_inr _ _ _ _ H) as [v [selected [Hv [_ [Hs ->]]]]].
  exists v. split; [exact Hv |].
  intros r Hr. apply in_map_iff in Hr. destruct Hr as [[row d] [<- Hx]].
  destruct (execute_select_inr _ _ _ _ _ Hs) as [p [Hp _]].
  destruct (execute_select_rows _ _ _ _ _ _ Hs Hp _ Hx) as [Hin [Hpx Hd]].
  simpl in Hin, Hpx, Hd. exists row. split; [exact Hin |].
  split; [unfold result_of; rewrite <- Hd; reflexivity |].
  apply (search_selects_iff _ _ _ _ Hp). exact Hpx.
Qed.

Lemma execute_select_complete v filters limit rows selected p row :
  execute_select v filters limit rows = inr selected ->
  where_clause filters = inr p ->
  (forall n, limit = Some n -> (Z.of_nat (List.length rows) <= n)%Z) ->
  In row rows -> p row = true ->
  In (row, cosine_distance (Row.embedding row) v) selected.
Proof.
  intros H Hp Hn Hin Hrow.
  destruct (execute_select_inr _ _ _ _ _ H) as [p' [Hp' Hsel]].
  rewrite Hp in Hp'. inversion Hp'; subst p'; clear Hp'. simpl in Hsel.
  set (hits := map (fun r => (r, cosine_distance (Row.embedding r) v))
                   (filter p rows)) in *.
  assert (Hord : In (row, cosine_distance (Row.embedding row) v)
                    (OrderByDistance.sort hits)).
  { eapply Permutation_in; [apply OrderByDistance.Permuted_sort |].
    unfold hits. apply in_map_iff. exists row. split; [reflexivity |].
    apply filter_In. auto. }
  destruct limit as [n |]; [| subst selected; exact Hord].
  destruct Hsel as [_ ->]. rewrite firstn_all2; [exact Hord |].
  rewrite <- (Permutation_length (OrderByDistance.Permuted_sort hits)).
  unfold hits. rewrite length_map.
  pose proof (filter_length_le p rows). specialize (Hn n eq_refl). lia.
Qed.

(** C8. In a search with a non-empty [user_id] filter every result has
    that owner. The supplied filters are conjoined: every result is a
    stored record that meets each of them (owner, source, and both time
    bounds) together with the threshold. An omitted filter imposes no
    constraint: when the limit does not cut the results, every stored
    record that meets the supplied filters and the threshold is returned;
    and with the [user_id] filter omitted, whether a record is selected
    does not depend on its owner. *)
Theorem search_owner_filter request w w' results :
  search_content request w = (inr results, w') ->
  (forall u, SearchRequest.user_id request = Some u -> u <> "" ->
     Forall (fun r => SearchResult.user_id r = u) results)
  /\ (forall s, SearchRequest.source request = Some s -> s <> "" ->
       Forall (fun r => SearchResult.source r = Some s) results)
  /\ (SearchRequest.user_id request = None ->
      forall v p, where_clause (search_filters request v) = inr p ->
        forall row u, p (with_user_id row u) = p row)
  /\ exists v,
       embed (SearchRequest.query request) w = (inr v, w')
       /\ (forall r, In r results ->
            exists row,
              In row (embedding_store w)
              /\ r = result_of v row
              /\ passes_filters request v row)
       /\ ((forall n, SearchRequest.limit request = Some n ->
              (Z.of_nat (List.length (embedding_store w)) <= n)%Z) ->
           forall row,
             In row (embedding_store w) ->
             passes_filters request v row ->
             In (result_of v row) results).
Proof.
  intros H.
  destruct (search_content_inr _ _ _ _ H) as [v [selected [Hv [_ [Hs ->]]]]].
  destruct (execute_select_inr _ _ _ _ _ Hs) as [p [Hp _]].
  pose proof (execute_select_rows _ _ _ _ _ _ Hs Hp) as Hrows.
  split; [| split; [| split]].
  - intros u Hu Hne. apply Forall_forall. intros r Hr.
    apply in_map_iff in Hr. destruct Hr as [x [<- Hx]].
    destruct (Hrows x Hx) as [_ [Hpx _]].
    assert (Hin : In (UserIdEq u) (search_filters request v)).
    { unfold search_filters. apply in_or_app. left.
      apply clause_if_In; assumption. }
    destruct (where_clause_In _ _ Hp _ Hin) as [pc [Hc Hpc]].
    simpl in Hc. inversion Hc; subst pc; clear Hc.
    specialize (Hpc _ Hpx). simpl in Hpc.
    apply String.eqb_eq in Hpc. exact Hpc.
  - intros s Hsrc Hne. apply Forall_forall. intros r Hr.
    apply in_map_iff in Hr. destruct Hr as [x [<- Hx]].
    destruct (Hrows x Hx) as [_ [Hpx _]].
    assert (Hin : In (SourceEq s) (search_filters request v)).
    { unfold search_filters. apply in_or_app. right.
      apply in_or_app. left. apply clause_if_In; assumption. }
    destruct (where_clause_In _ _ Hp _ Hin) as [pc [Hc Hpc]].
    simpl in Hc. inversion Hc; subst pc; clear Hc.
    specialize (Hpc _ Hpx). simpl in Hpc. simpl.
    destruct (Row.source (fst x)) as [s' |]; [| discriminate].
    apply String.eqb_eq in Hpc. congruence.
  - intros Hnone v' p' Hp' row u.
    apply (where_clause_agree _ _ _ _ Hp').
    intros c pc Hin Hc. unfold search_filters in Hin.
    rewrite Hnone in Hin. simpl in Hin.
    unfold clause_if in Hin.
    repeat (apply in_app_or in Hin; destruct Hin as [Hin | Hin]);
      repeat match type of Hin with
             | In _ (match ?o with _ => _ end) => destruct o
             | In _ (if ?b then _ else _) => destruct b
             end;
      simpl in Hin; try contradiction;
      destruct Hin as [<- | []]; simpl in Hc;
      try (destruct (timestamptz_in _); [discriminate |]);
      inversion Hc; reflexivity.
  - exists v. split; [exact Hv |]. split.
    + intros r Hr. apply in_map_iff in Hr. destruct Hr as [[row d] [<- Hx]].
      destruct (Hrows _ Hx) as [Hin [Hpx Hd]].
      simpl in Hin, Hpx, Hd. exists row. split; [exact Hin |].
      split; [unfold result_of; rewrite <- Hd; reflexivity |].
      apply (search_selects_iff _ _ _ _ Hp). exact Hpx.
    + intros Hn row Hin Hpass. unfold result_of. apply in_map.
      apply (execute_select_complete _ _ _ _ _ _ _ Hs Hp Hn Hin).
      apply (search_selects_iff _ _ _ _ Hp). exact Hpass.
Qed.

(** X13. When the limit is [null] or at least the number of stored
    records, a search returns every stored record that meets the supplied
    filters and the threshold. *)
Theorem search_returns_every_match request w w' results v :
  search_content request w = (inr results, w') ->
  embed (SearchRequest.query request) w = (inr v, w') ->
  (forall n, SearchRequest.limit request = Some n ->
     (Z.of_nat (List.length (embedding_store w)) <= n)%Z) ->
  forall row,
    In row (embedding_store w) ->
    passes_filters request v row ->
    In (result_of v row) results.
Proof.
  intros H Hv Hn row Hin Hpass.
  destruct (embed_search_content _ _ _ _ _ _ H Hv) as [selected [Hs ->]].
  destruct (execute_select_inr _ _ _ _ _ Hs) as [p [Hp _]].
  unfold result_of. apply in_map.
  apply (execute_select_complete _ _ _ _ _ _ _ Hs Hp Hn Hin).
  apply (search_selects_iff _ _ _ _ Hp). exact Hpass.
Qed.

Lemma StronglySorted_app_le {A : Type} (R : A -> A -> Prop) l1 l2 :
  StronglySorted R (l1 ++ l2) ->
  forall a b, In a l1 -> In b l2 -> R a b.
Proof.
  induction l1 as [| x l1 IH]; intros H a b Ha Hb; [destruct Ha |].
  simpl in H. apply StronglySorted_inv in H. destruct H as [Hs Hx].
  destruct Ha as [<- | Ha].
  - apply (proj1 (Forall_forall _ _) Hx). apply in_or_app. right. exact Hb.
  - apply (IH Hs a b Ha Hb).
Qed.

Lemma by_distance_trans : Relations_1.Transitive by_distance.
Proof.
  intros x y z Hxy Hyz. unfold by_distance in *.
  eapply Qle_trans; eassumption.
Qed.

(** X14. The limit keeps the closest records: a stored record that meets
    the filters and the threshold but is not among the results is at least
    as far from the query as every result. *)
Theorem search_limit_keeps_closest request w w' results v :
  search_content request w = (inr results, w') ->
  embed (SearchRequest.query request) w = (inr v, w') ->
  forall row,
    In row (embedding_store w) ->
    passes_filters request v row ->
    ~ In (result_of v row) results ->
    forall r, In r results ->
      SearchResult.distance r <= cosine_distance (Row.embedding row) v.
Proof.
  intros H Hv row Hin Hpass Hout r Hr.
  destruct (embed_search_content _ _ _ _ _ _ H Hv) as [selected [Hs ->]].
  destruct (execute_select_inr _ _ _ _ _ Hs) as [p [Hp Hsel]].
  simpl in Hsel.
  set (hits := map (fun r => (r, cosine_distance (Row.embedding r) v))
                   (filter p (embedding_store w))) in *.
  set (x := (row, cosine_distance (Row.embedding row) v)).
  assert (Hord : In x (OrderByDistance.sort hits)).
  { eapply Permutation_in; [apply OrderByDistance.Permuted_sort |].
    unfold hits. apply in_map_iff. exists row. split; [reflexivity |].
    apply filter_In. split; [exact Hin |].
    apply (search_selects_iff _ _ _ _ Hp). exact Hpass. }
  assert (Hnot : ~ In x selected).
  { intros Hx. apply Hout. unfold result_of. apply in_map. exact Hx. }
  apply in_map_iff in Hr. destruct Hr as [y [<- Hy]].
  destruct (SearchRequest.limit request) as [n |].
  - destruct Hsel as [_ Hsel]. rewrite Hsel in Hnot, Hy.
    rewrite <- (firstn_skipn (Z.to_nat n) (OrderByDistance.sort hits)) in Hord.
    apply in_app_or in Hord. destruct Hord as [Hord | Hord]; [tauto |].
    assert (HS : StronglySorted by_distance
                   (firstn (Z.to_nat n) (OrderByDistance.sort hits)
                    ++ skipn (Z.to_nat n) (OrderByDistance.sort hits))).
    { rewrite firstn_skipn.
      apply Sorted_StronglySorted;
        [apply by_distance_trans | apply Sorted_by_distance]. }
    exact (StronglySorted_app_le _ _ _ HS y x Hy Hord).
  - subst selected. tauto.
Qed.

(** ** Time filters that cannot be read *)

Lemma where_clause_raises filters :
  (exists c e, In c filters /\ compile_clause c = inl e) ->
  exists c e, In c filters /\ compile_clause c = inl e
              /\ where_clause filters = inl e.
Proof.
  induction filters as [| c0 cs IH]; intros [c [e [Hin Hc]]];
    [destruct Hin |].
  simpl. destruct (compile_clause c0) as [e0 | p0] eqn:E0.
  - exists c0, e0. simpl. auto.
  - destruct Hin as [-> | Hin]; [congruence |].
    destruct (IH (ex_intro _ c (ex_intro _ e (conj Hin Hc))))
      as [c' [e' [Hin' [Hc' Hw]]]].
    rewrite Hw. exists c', e'. simpl. auto.
Qed.

(** X15. A supplied [created_after] or [created_before] that PostgreSQL
    cannot read as a timestamp makes the search raise 500 with the detail
    "Database error: " and the message of a failed cast; the text of these
    two fields is not checked before the query runs. *)
Theorem search_malformed_timestamp request w v w1 s e :
  embed (SearchRequest.query request) w = (inr v, w1) ->
  connect_error w = None ->
  supplied (SearchRequest.created_after request) s
  \/ supplied (SearchRequest.created_before request) s ->
  timestamptz_in s = inl e ->
  exists s' msg,
    (supplied (SearchRequest.created_after request) s'
     \/ supplied (SearchRequest.created_before request) s')
    /\ timestamptz_in s' = inl msg
    /\ search_content request w
       = (inl (HTTPException 500 ("Database error: " ++ msg)), w1).
Proof.
  intros Hv Hc Hs He.
  assert (Hbad : exists c e0, In c (search_filters request v)
                              /\ compile_clause c = inl e0).
  { destruct Hs as [Hs | Hs].
    - exists (CreatedGe s), e. split.
      + apply search_filters_In. right. right. left. eauto.
      + simpl. rewrite He. reflexivity.
    - exists (CreatedLe s), e. split.
      + apply search_filters_In. do 3 right. left. eauto.
      + simpl. rewrite He. reflexivity. }
  destruct (where_clause_raises _ Hbad) as [c [msg [Hin [Ec Hw]]]].
  assert (Hsrc : exists s',
             (supplied (SearchRequest.created_after request) s'
              \/ supplied (SearchRequest.created_before request) s')
             /\ timestamptz_in s' = inl msg).
  { apply search_filters_In in Hin.
    destruct Hin as [[u [_ ->]] | [[s' [_ ->]] | [[s' [Ss ->]]
                    | [[s' [Ss ->]] | ->]]]];
      simpl in Ec; try discriminate Ec;
      destruct (timestamptz_in s') as [e1 |] eqn:E1; try discriminate Ec;
      exists s'; split; auto; congruence. }
  destruct Hsrc as [s' [Hs' Hm]]. exists s', msg.
  split; [exact Hs' |]. split; [exact Hm |].
  destruct (embed_store _ _ _ _ Hv) as [_ [Hc1 _]]. rewrite Hc in Hc1.
  revert Hv. unfold embed, search_content, try_except, bind, lift, raise.
  destruct (get_embedding_service w) as [[e0 | svc] w0]; [discriminate |].
  destruct (encode svc (SearchRequest.query request)) as [e0 | v0];
    [discriminate |].
  intros Hv. injection Hv as -> ->.
  unfold get_db_connection. rewrite Hc1.
  unfold execute_select. rewrite Hw. reflexivity.
Qed.

(** ** Insert, then search *)

Lemma embed_cached text w v w1 :
  embed text w = (inr v, w1) ->
  forall w2, _embedding_service w2 = _embedding_service w1 ->
    embed text w2 = (inr v, w2).
Proof.
  unfold embed, bind, lift.
  destruct (get_embedding_service w) as [[e0 | s] w0] eqn:G; [discriminate |].
  destruct (encode s text) as [e0 | v0] eqn:E; [discriminate |].
  intros H. injection H as -> ->. intros w2 H2.
  rewrite (embedding_service_loaded_once_aux w s w1 G w2 H2), E.
  reflexivity.
Qed.

(** X16. An inserted record is found again: after an insert has returned,
    a search for the same text on the resulting world, without time
    filters, with owner and source filters (if any) equal to the record's,
    and with a limit (if any) above the number of records stored before,
    returns the record under the id the insert returned, at the distance
    of its vector to itself, provided that distance is within the
    threshold. *)
Theorem insert_then_search_finds add_request w r w1 search_request
    results w2 v w0 :
  add_content add_request w = (inr r, w1) ->
  search_content search_request w1 = (inr results, w2) ->
  SearchRequest.query search_request = AddContentRequest.content add_request ->
  (forall u, supplied (SearchRequest.user_id search_request) u ->
     u = AddContentRequest.user_id add_request) ->
  (forall s, supplied (SearchRequest.source search_request) s ->
     AddContentRequest.source add_request = Some s) ->
  (forall s, ~ supplied (SearchRequest.created_after search_request) s) ->
  (forall s, ~ supplied (SearchRequest.created_before search_request) s) ->
  (forall n, SearchRequest.limit search_request = Some n ->
     (Z.of_nat (List.length (embedding_store w)) < n)%Z) ->
  embed (AddContentRequest.content add_request) w = (inr v, w0) ->
  cosine_distance v v <= effective_threshold search_request ->
  exists res,
    In res results
    /\ SearchResult.id res = ContentResponse.id r
    /\ SearchResult.content res = AddContentRequest.content add_request
    /\ SearchResult.user_id res = AddContentRequest.user_id add_request
    /\ SearchResult.distance res = cosine_distance v v.
Proof.
  intros Ha Hs Hq Hu Hsrc Hca Hcb Hn Hv Hd.
  destruct (add_content_inr _ _ _ _ Ha)
    as [v' [w1' [row [Hv' [_ [Hrow [Hw1 Hr]]]]]]].
  rewrite Hv in Hv'. injection Hv' as <- <-.
  assert (Hv1 : embed (SearchRequest.query search_request) w1 = (inr v, w1)).
  { rewrite Hq. apply (embed_cached _ _ _ _ Hv). subst w1. reflexivity. }
  destruct (search_content_inr _ _ _ _ Hs) as [v1 [sel [Hv1' _]]].
  rewrite Hv1 in Hv1'. injection Hv1' as <- <-.
  assert (Hstore : embedding_store w1 = embedding_store w ++ [row]).
  { subst w1. reflexivity. }
  exists (result_of v row).
  split.
  - destruct (embed_search_content _ _ _ _ _ _ Hs Hv1) as [selected [Hsel ->]].
    destruct (execute_select_inr _ _ _ _ _ Hsel) as [p [Hp _]].
    unfold result_of. apply in_map.
    apply (execute_select_complete _ _ _ _ _ _ _ Hsel Hp).
    + intros n Hl. rewrite Hstore, length_app. simpl.
      specialize (Hn n Hl). lia.
    + rewrite Hstore. apply in_or_app. right. simpl. auto.
    + apply (search_selects_iff _ _ _ _ Hp).
      subst row. unfold passes_filters. simpl. repeat split.
      * intros u Su. symmetry. auto.
      * intros s Ss. auto.
      * intros s Ss. destruct (Hca s Ss).
      * intros s Ss. destruct (Hcb s Ss).
      * exact Hd.
  - subst row r. unfold result_of. simpl. auto.
Qed.

(** ** Validation of request bodies *)

Lemma required_Some {A : Type} (ok : A -> bool) f a :
  required ok f = Some a -> f = Given a /\ ok a = true.
Proof.
  unfold required. destruct f as [| | a0]; try discriminate.
  destruct (ok a0) eqn:Hok; [| discriminate].
  intros H. injection H as <-. auto.
Qed.

Lemma optional_Some {A : Type} (default : option A) (ok : A -> bool) f o :
  optional default ok f = Some o ->
  (f = Absent /\ default = o)
  \/ (f = Null /\ None = o)
  \/ (exists a, f = Given a /\ ok a = true /\ Some a = o).
Proof.
  unfold optional. destruct f as [| | a].
  - intros H. injection H as <-. auto.
  - intros H. injection H as <-. auto.
  - destruct (ok a) eqn:Hok; [| discriminate].
    intros H. injection H as <-. right. right. eauto.
Qed.

(** X17. A search body that validates yields a request whose limit is
    [None] exactly when the body's limit is [null], is 10 when the body has
    no limit, and otherwise lies in [1,100]; whose owner and source filters
    have at most 9 and 255 characters; whose threshold, if any, lies in
    [0,2]; and whose query is the body's. *)
Theorem search_request_validated body request :
  SearchRequest_validate body = Some request ->
  (SearchRequest.limit request = None <-> SearchBody.limit body = Null)
  /\ (SearchBody.limit body = Absent ->
      SearchRequest.limit request = Some 10%Z)
  /\ (forall n, SearchRequest.limit request = Some n ->
        (1 <= n <= 100)%Z)
  /\ (forall u, SearchRequest.user_id request = Some u ->
        (String.length u <= 9)%nat)
  /\ (forall s, SearchRequest.source request = Some s ->
        (String.length s <= 255)%nat)
  /\ (forall d, SearchRequest.distance_threshold request = Some d ->
        0 <= d /\ d <= 2)
  /\ SearchBody.query body = Given (SearchRequest.query request).
Proof.
  unfold SearchRequest_validate.
  destruct (required _ (SearchBody.query body)) as [q |] eqn:Eq;
    [| discriminate].
  destruct (optional _ _ (SearchBody.limit body)) as [l |] eqn:El;
    [| discriminate].
  destruct (optional _ _ (SearchBody.user_id body)) as [u |] eqn:Eu;
    [| discriminate].
  destruct (optional _ _ (SearchBody.source body)) as [s |] eqn:Es;
    [| discriminate].
  destruct (optional _ _ (SearchBody.distance_threshold body)) as [d |] eqn:Ed;
    [| discriminate].
  destruct (optional _ _ (SearchBody.created_after body)) as [ca |];
    [| discriminate].
  destruct (optional _ _ (SearchBody.created_before body)) as [cb |];
    [| discriminate].
  intros H. injection H as <-. simpl.
  apply required_Some in Eq. destruct Eq as [Eq _].
  apply optional_Some in El, Eu, Es, Ed.
  split; [| split; [| split; [| split; [| split; [| split]]]]].
  - destruct El as [[-> <-] | [[-> <-] | [n [-> [_ <-]]]]];
      split; intros; congruence.
  - intros Ha.
    destruct El as [[_ <-] | [[El _] | [n [El _]]]]; congruence.
  - intros n Hn.
    destruct El as [[_ <-] | [[_ <-] | [n' [_ [Hok <-]]]]].
    + injection Hn as <-. lia.
    + discriminate Hn.
    + injection Hn as <-. apply andb_true_iff in Hok.
      rewrite !Z.leb_le in Hok. exact Hok.
  - intros u' Hu.
    destruct Eu as [[_ <-] | [[_ <-] | [u0 [_ [Hok <-]]]]];
      try discriminate Hu.
    injection Hu as <-. apply Nat.leb_le. exact Hok.
  - intros s' Hs.
    destruct Es as [[_ <-] | [[_ <-] | [s0 [_ [Hok <-]]]]];
      try discriminate Hs.
    injection Hs as <-. apply Nat.leb_le. exact Hok.
  - intros d' Hd.
    destruct Ed as [[_ <-] | [[_ <-] | [d0 [_ [Hok <-]]]]];
      try discriminate Hd.
    injection Hd as <-. apply andb_true_iff in Hok.
    rewrite !Qle_bool_iff in Hok. exact Hok.
  - exact Eq.
Qed.

(** X18. An insert body that validates has an owner of at most 9
    characters and a source, if any, of at most 255, and the request
    carries the body's owner, text, source and metadata unchanged; a body
    without owner or text, or with an owner of more than 9 characters, is
    rejected. *)
Theorem add_request_validated body :
  (forall request,
     AddContentRequest_validate body = Some request ->
     (String.length (AddContentRequest.user_id request) <= 9)%nat
     /\ (forall s, AddContentRequest.source request = Some s ->
           (String.length s <= 255)%nat)
     /\ AddContentBody.user_id body
        = Given (AddContentRequest.user_id request)
     /\ AddContentBody.content body
        = Given (AddContentRequest.content request)
     /\ (forall s, AddContentBody.source body = Given s ->
           AddContentRequest.source request = Some s)
     /\ (forall m, AddContentBody.metadata body = Given m ->
           AddContentRequest.metadata request = Some m))
  /\ ((forall u, AddContentBody.user_id body = Given u ->
         (9 < String.length u)%nat)
      \/ (forall c, AddContentBody.content body <> Given c) ->
      AddContentRequest_validate body = None).
Proof.
  unfold AddContentRequest_validate. split.
  - intros request.
    destruct (required _ (AddContentBody.user_id body)) as [u |] eqn:Eu;
      [| discriminate].
    destruct (required _ (AddContentBody.content body)) as [c |] eqn:Ec;
      [| discriminate].
    destruct (optional _ _ (AddContentBody.source body)) as [s |] eqn:Es;
      [| discriminate].
    destruct (optional _ _ (AddContentBody.metadata body)) as [m |] eqn:Em;
      [| discriminate].
    intros H. injection H as <-. simpl.
    apply required_Some in Eu, Ec. destruct Eu as [Eu Hu]. destruct Ec as [Ec _].
    apply optional_Some in Es, Em.
    split; [apply Nat.leb_le; exact Hu |].
    split; [| split; [exact Eu | split; [exact Ec | split]]].
    + intros s' Hs.
      destruct Es as [[_ <-] | [[_ <-] | [s0 [_ [Hok <-]]]]];
        try discriminate Hs.
      injection Hs as <-. apply Nat.leb_le. exact Hok.
    + intros s' Hs.
      destruct Es as [[Es _] | [[Es _] | [s0 [Es [_ <-]]]]]; congruence.
    + intros m' Hm.
      destruct Em as [[Em _] | [[Em _] | [m0 [Em [_ <-]]]]]; congruence.
  - intros [Hu | Hc].
    + destruct (required _ (AddContentBody.user_id body)) as [u |] eqn:Eu;
        [| reflexivity].
      apply required_Some in Eu. destruct Eu as [Eu Hok].
      specialize (Hu u Eu). apply Nat.leb_le in Hok. lia.
    + destruct (required _ (AddContentBody.user_id body)) as [u |];
        [| reflexivity].
      destruct (required _ (AddContentBody.content body)) as [c |] eqn:Ec;
        [| reflexivity].
      apply required_Some in Ec. destruct Ec as [Ec _].
      destruct (Hc c Ec).
Qed.

(** X19. A search whose body validates and does not give [null] as limit
    returns at most 100 results, and at most 10 when the body has no
    limit. *)
Theorem search_body_limit_bound body request w results w' :
  SearchRequest_validate body = Some request ->
  SearchBody.limit body <> Null ->
  search_content request w = (inr results, w') ->
  (List.length results <= 100)%nat
  /\ (SearchBody.limit body = Absent -> (List.length results <= 10)%nat).
Proof.
  intros Hval Hnull Hs.
  assert (Hl : exists n, SearchRequest.limit request = Some n
                         /\ (1 <= n <= 100)%Z
                         /\ (SearchBody.limit body = Absent -> n = 10%Z)).
  { revert Hval. unfold SearchRequest_validate.
    destruct (required _ (SearchBody.query body)); [| discriminate].
    destruct (optional _ _ (SearchBody.limit body)) as [l |] eqn:El;
      [| discriminate].
    destruct (optional _ _ (SearchBody.user_id body)); [| discriminate].
    destruct (optional _ _ (SearchBody.source body)); [| discriminate].
    destruct (optional _ _ (SearchBody.distance_threshold body));
      [| discriminate].
    destruct (optional _ _ (SearchBody.created_after body)); [| discriminate].
    destruct (optional _ _ (SearchBody.created_before body));
      [| discriminate].
    intros H. injection H as <-. simpl.
    apply optional_Some in El.
    destruct El as [[_ <-] | [[El _] | [n [El [Hok <-]]]]].
    - exists 10%Z. repeat split; lia.
    - contradiction.
    - exists n. apply andb_true_iff in Hok. rewrite !Z.leb_le in Hok.
      repeat split; try lia. congruence. }
  destruct Hl as [n [Hn [Hr Hd]]].
  pose proof (search_limit_bound _ _ _ _ _ Hs Hn) as Hb.
  split; [lia |]. intros Ha. specialize (Hd Ha). lia.
Qed.

(** X20. A search returns as many results as there are stored records
    that meet the filters and the threshold, cut at the limit when the
    limit is a number. *)
Theorem search_result_count request w w' results :
  search_content request w = (inr results, w') ->
  exists v p,
    embed (SearchRequest.query request) w = (inr v, w')
    /\ (forall row, p row = true <-> passes_filters request v row)
    /\ List.length results
       = match SearchRequest.limit request with
         | None => List.length (filter p (embedding_store w))
         | Some n => Nat.min (Z.to_nat n)
                             (List.length (filter p (embedding_store w)))
         end.
Proof.
  intros H.
  destruct (search_content_inr _ _ _ _ H) as [v [selected [Hv [_ [Hs ->]]]]].
  destruct (execute_select_inr _ _ _ _ _ Hs) as [p [Hp Hsel]].
  exists v, p. split; [exact Hv |].
  split; [intros row; apply (search_selects_iff _ _ _ _ Hp) |].
  simpl in Hsel. rewrite length_map.
  assert (Hlen : forall l : list (Row.t * Q),
            List.length (OrderByDistance.sort l) = List.length l).
  { intros l. symmetry.
    apply Permutation_length, OrderByDistance.Permuted_sort. }
  destruct (SearchRequest.limit request) as [n |].
  - destruct Hsel as [_ ->].
    rewrite length_firstn, Hlen, length_map. reflexivity.
  - subst selected. rewrite Hlen, length_map. reflexivity.
Qed.

End Coverage.

(** * The further properties at work on the example store *)

(** X1, at the first call in the example world. *)
Lemma embedding_service_loaded_once_witness :
  get_embedding_service Example.world = (inr Tour.service, Tour.loaded)
  /\ _embedding_service Tour.loaded = Some Tour.service
  /\ get_embedding_service Tour.loaded = (inr Tour.service, Tour.loaded).
Proof.
  assert (H : get_embedding_service Example.world
              = (inr Tour.service, Tour.loaded)) by reflexivity.
  split; [exact H |].
  destruct (embedding_service_loaded_once _ _ _ H) as [H1 [H2 _]].
  exact (conj H1 H2).
Defined.

(** X2, at a world where the model cannot be loaded. *)
Lemma embedding_service_failure_not_cached_witness :
  get_embedding_service Example.world_no_model
  = (inl "unavailable", Example.world_no_model)
  /\ _embedding_service Example.world_no_model = None
  /\ load_model Example.world_no_model = inl "unavailable".
Proof.
  assert (H : get_embedding_service Example.world_no_model
              = (inl "unavailable", Example.world_no_model)) by reflexivity.
  split; [exact H |].
  destruct (embedding_service_failure_not_cached _ _ _ H) as [_ [H1 [H2 _]]].
  exact (conj H1 H2).
Defined.

(** X3, at start-up with a model that loads. *)
Lemma lifespan_startup_survives_witness :
  _embedding_service Example.world = None
  /\ load_model Example.world = inr Example.sign_model
  /\ exists w',
       lifespan_startup Example.world = (inr tt, w')
       /\ embedding_store w' = embedding_store Example.world
       /\ exists s, _embedding_service w' = Some s
                    /\ model s = Example.sign_model
                    /\ get_dimension s = 1%Z.
Proof.
  split; [reflexivity |]. split; [reflexivity |].
  destruct (lifespan_startup_survives Example.world)
    as [w' [H [Hs [_ [_ [Hm _]]]]]].
  exists w'. split; [exact H |]. split; [exact Hs |].
  exact (Hm Example.sign_model eq_refl eq_refl).
Defined.

(** X4, at an insert after start-up. *)
Lemma startup_preload_transparent_witness :
  lifespan_startup Example.world = (inr tt, Tour.loaded)
  /\ @add_content Example.externals (Example.add_hello None) Tour.loaded
     = @add_content Example.externals (Example.add_hello None) Example.world.
Proof.
  assert (H : lifespan_startup Example.world = (inr tt, Tour.loaded))
    by reflexivity.
  split; [exact H |].
  exact (proj1 (@startup_preload_transparent Example.externals _ _ H)
               (Example.add_hello None)).
Defined.

(** X5, at a search of the example world. *)
Lemma search_content_read_only_witness :
  let out := @search_content Example.externals Tour.search_alice
                             Example.world in
  embedding_store (snd out) = embedding_store Example.world
  /\ id_seq (snd out) = id_seq Example.world.
Proof.
  intros out.
  assert (H : out = (fst out, snd out)) by reflexivity.
  destruct (@search_content_read_only Example.externals _ _ _ _ H)
    as [H1 [H2 _]].
  exact (conj H1 H2).
Defined.

(** X6, at an insert while the database cannot be reached. *)
Lemma add_content_failure_persists_nothing_witness :
  let out := @add_content Example.externals (Example.add_hello None)
                          Example.world_no_db in
  fst out = inl (HTTPException 500 "Database error: unavailable")
  /\ embedding_store (snd out) = embedding_store Example.world_no_db
  /\ id_seq (snd out) = id_seq Example.world_no_db.
Proof.
  intros out.
  assert (H : out = (inl (HTTPException 500 "Database error: unavailable"),
                     snd out)) by reflexivity.
  split; [reflexivity |].
  destruct (@add_content_failure_persists_nothing Example.externals _ _ _ _ H)
    as [H1 [H2 _]].
  exact (conj H1 H2).
Defined.

(** X7, at an insert into the example world. *)
Lemma add_content_stores_encoding_witness :
  let request := Example.add_hello None in
  let out := @add_content Example.externals request Example.world in
  let r := ContentResponse.Build "id-2" "u1" "hello world" None None
                                 Example.t2025 in
  fst out = inr r
  /\ exists s row,
       _embedding_service (snd out) = Some s
       /\ embedding_store (snd out) = embedding_store Example.world ++ [row]
       /\ Row.content row = "hello world"
       /\ encode s (Row.content row) = inr (Row.embedding row)
       /\ id_seq (snd out) = N.succ (id_seq Example.world).
Proof.
  intros request out r.
  assert (H : out = (inr r, snd out)) by reflexivity.
  split; [reflexivity |].
  exact (@add_content_stores_encoding Example.externals _ _ _ _ H).
Defined.

(** X8, at an insert into the loaded example world. *)
Lemma handlers_keep_vectors_matching_witness :
  let out := @add_content Example.externals (Example.add_hello None)
                          Tour.loaded in
  _embedding_service Tour.loaded = Some Tour.service
  /\ vectors_match Tour.service (embedding_store Tour.loaded)
  /\ _embedding_service (snd out) = Some Tour.service
  /\ vectors_match Tour.service (embedding_store (snd out)).
Proof.
  intros out.
  assert (V : vectors_match Tour.service (embedding_store Tour.loaded)).
  { repeat constructor. }
  split; [reflexivity |]. split; [exact V |].
  exact (proj1 (@handlers_keep_vectors_matching Example.externals
                  Tour.loaded Tour.service eq_refl V)
               (Example.add_hello None) (fst out) (snd out) eq_refl).
Defined.

(** X9, at the delete of a stored record. *)
Lemma remove_content_present_witness :
  In Example.alice (embedding_store Example.world)
  /\ exists w',
       @remove_content Example.externals "id-0" Example.world
       = (inr (DeleteResponse.Build "Content deleted successfully" "id-0"),
          w')
       /\ embedding_store w' = [Example.bob].
Proof.
  assert (Hin : In Example.alice (embedding_store Example.world)).
  { simpl. auto. }
  split; [exact Hin |].
  destruct (@remove_content_present Example.externals "id-0" Example.world
              Example.alice
              eq_refl Hin eq_refl) as [w' [H [Hs _]]].
  exists w'. split; [exact H |]. rewrite Hs. reflexivity.
Defined.


(** X11, at a world whose database cannot be reached. *)
Lemma unreachable_database_500_witness :
  connect_error Example.world_no_db = Some "unavailable"
  /\ @remove_content Example.externals "id-0" Example.world_no_db
     = (inl (HTTPException 500 "Database error: unavailable"),
        Example.world_no_db).
Proof.
  split; [reflexivity |].
  exact (proj1 (@unreachable_database_500 Example.externals
                  Example.world_no_db "unavailable" eq_refl) "id-0").
Defined.

(** X12, at a search for one owner's records. *)
Lemma search_results_are_matching_rows_witness :
  let out := @search_content Example.externals Tour.search_alice
                             Example.world in
  let results := [@result_of Example.externals [1] Example.alice] in
  fst out = inr results
  /\ exists v,
       embed "a feline on a rug" Example.world = (inr v, snd out)
       /\ forall r, In r results ->
            exists row,
              In row (embedding_store Example.world)
              /\ r = @result_of Example.externals v row
              /\ @passes_filters Example.externals Tour.search_alice v row.
Proof.
  intros out results.
  assert (H : out = (inr results, snd out)) by reflexivity.
  split; [reflexivity |].
  exact (@search_results_are_matching_rows Example.externals _ _ _ _ H).
Defined.

Lemma passes_filters_bob :
  @passes_filters Example.externals
     (Example.search_for (Some 10%Z) None (Some 2)) [1] Example.bob.
Proof.
  unfold passes_filters, supplied. simpl.
  repeat split; try (intros s [Hs _]; discriminate Hs).
  apply Qle_bool_iff. reflexivity.
Qed.

Lemma passes_filters_bob_top1 :
  @passes_filters Example.externals Tour.search_top1 [1] Example.bob.
Proof.
  unfold passes_filters, supplied. simpl.
  repeat split; try (intros s [Hs _]; discriminate Hs).
  apply Qle_bool_iff. reflexivity.
Qed.

(** X13, at a search whose limit exceeds the size of the store. *)
Lemma search_returns_every_match_witness :
  let request := Example.search_for (Some 10%Z) None (Some 2) in
  let out := @search_content Example.externals request Example.world in
  let results := [@result_of Example.externals [1] Example.alice;
                  @result_of Example.externals [1] Example.bob] in
  fst out = inr results
  /\ In (@result_of Example.externals [1] Example.bob) results.
Proof.
  intros request out results.
  assert (H : out = (inr results, snd out)) by reflexivity.
  split; [reflexivity |].
  refine (@search_returns_every_match Example.externals _ _ _ _ [1] H
            eq_refl _ Example.bob _ passes_filters_bob).
  - intros n Hn. injection Hn as <-. simpl. lia.
  - simpl. auto.
Defined.

(** X14, at a search that asks for one record: the one left out is the
    farther one. *)
Lemma search_limit_keeps_closest_witness :
  let out := @search_content Example.externals Tour.search_top1
                             Example.world in
  let results := [@result_of Example.externals [1] Example.alice] in
  fst out = inr results
  /\ ~ In (@result_of Example.externals [1] Example.bob) results
  /\ forall r, In r results ->
       SearchResult.distance r
       <= @cosine_distance Example.externals (Row.embedding Example.bob) [1].
Proof.
  intros out results.
  assert (H : out = (inr results, snd out)) by reflexivity.
  assert (Hout : ~ In (@result_of Example.externals [1] Example.bob) results).
  { intros [Hb | []]. vm_compute in Hb. discriminate Hb. }
  split; [reflexivity |]. split; [exact Hout |].
  refine (@search_limit_keeps_closest Example.externals _ _ _ _ [1] H
            eq_refl Example.bob _ passes_filters_bob_top1 Hout).
  simpl. auto.
Defined.

(** X15, at a search with a time filter that is no timestamp. *)
Lemma search_malformed_timestamp_witness :
  supplied (SearchRequest.created_after (Tour.search_since "not-a-date"))
           "not-a-date"
  /\ exists s' msg,
       Example.parse_timestamp s' = inl msg
       /\ @search_content Example.externals (Tour.search_since "not-a-date")
                          Example.world
          = (inl (HTTPException 500 ("Database error: " ++ msg)), Tour.loaded).
Proof.
  assert (Hs : supplied (SearchRequest.created_after
                           (Tour.search_since "not-a-date")) "not-a-date").
  { split; [reflexivity | discriminate]. }
  split; [exact Hs |].
  destruct (@search_malformed_timestamp Example.externals
              (Tour.search_since "not-a-date") Example.world [1] Tour.loaded
              "not-a-date" _ eq_refl eq_refl (or_introl Hs) eq_refl)
    as [s' [msg [_ [Hm H]]]].
  exists s', msg. exact (conj Hm H).
Defined.

(** X16, at an insert of "hello world" followed by a search for it. *)
Lemma insert_then_search_finds_witness :
  let added := @add_content Example.externals (Example.add_hello None)
                            Example.world in
  let out := @search_content Example.externals Tour.search_hello
                             (snd added) in
  exists r results,
    fst added = inr r
    /\ fst out = inr results
    /\ exists res,
         In res results
         /\ SearchResult.id res = ContentResponse.id r
         /\ SearchResult.content res = "hello world"
         /\ SearchResult.user_id res = "u1"
         /\ SearchResult.distance res = 0.
Proof.
  intros added out.
  destruct added as [[e | r] w1] eqn:Ha; [vm_compute in Ha; discriminate Ha |].
  subst out. simpl.
  destruct (@search_content Example.externals Tour.search_hello w1)
    as [[e | results] w2] eqn:Hs.
  { apply (f_equal snd) in Ha. simpl in Ha. subst w1.
    vm_compute in Hs. discriminate Hs. }
  exists r, results. split; [reflexivity |]. split; [reflexivity |].
  refine (@insert_then_search_finds Example.externals
            (Example.add_hello None) Example.world r w1 Tour.search_hello
            results w2 [1] Tour.loaded Ha Hs eq_refl _ _ _ _ _ eq_refl _).
  - intros u [Hu _]. injection Hu as <-. reflexivity.
  - intros s [Hsrc _]. discriminate Hsrc.
  - intros s [Hca _]. discriminate Hca.
  - intros s [Hcb _]. discriminate Hcb.
  - intros n Hn. injection Hn as <-. simpl. lia.
  - apply Qle_bool_iff. reflexivity.
Defined.

(** X17, at a body with a limit, an owner and a threshold. *)
Lemma search_request_validated_witness :
  let request := SearchRequest.Build "a feline on a rug" (Some 5%Z)
                                     (Some "alice") None (Some 1) None None in
  SearchRequest_validate Tour.body_limit_5 = Some request
  /\ (forall n, SearchRequest.limit request = Some n -> (1 <= n <= 100)%Z)
  /\ (forall u, SearchRequest.user_id request = Some u ->
        (String.length u <= 9)%nat).
Proof.
  intros request.
  assert (H : SearchRequest_validate Tour.body_limit_5 = Some request)
    by reflexivity.
  split; [exact H |].
  destruct (search_request_validated _ _ H) as [_ [_ [Hl [Hu _]]]].
  exact (conj Hl Hu).
Defined.

(** X18, at the body with empty metadata. *)
Lemma add_request_validated_witness :
  let request := Example.add_hello (Some []) in
  AddContentRequest_validate Example.body_empty_metadata = Some request
  /\ (String.length (AddContentRequest.user_id request) <= 9)%nat
  /\ AddContentRequest.metadata request = Some [].
Proof.
  intros request.
  assert (H : AddContentRequest_validate Example.body_empty_metadata
              = Some request) by reflexivity.
  split; [exact H |].
  destruct (proj1 (add_request_validated Example.body_empty_metadata)
                  request H) as [Hu [_ [_ [_ [_ Hm]]]]].
  exact (conj Hu (Hm [] eq_refl)).
Defined.

(** X19, at a body without limit on a store of 101 qualifying records. *)
Lemma search_body_limit_bound_witness :
  let request := Example.search_for (Some 10%Z) None None in
  SearchRequest_validate Tour.body_query_only = Some request
  /\ SearchBody.limit Tour.body_query_only <> Null
  /\ exists results w',
       @search_content Example.externals request Example.world_101
       = (inr results, w')
       /\ (List.length results <= 10)%nat.
Proof.
  intros request.
  assert (H : SearchRequest_validate Tour.body_query_only = Some request)
    by reflexivity.
  assert (Hn : SearchBody.limit Tour.body_query_only <> Null)
    by discriminate.
  split; [exact H |]. split; [exact Hn |].
  destruct (@search_content Example.externals request Example.world_101)
    as [[e | results] w'] eqn:Hs; [vm_compute in Hs; discriminate Hs |].
  exists results, w'. split; [reflexivity |].
  exact (proj2 (@search_body_limit_bound Example.externals _ _ _ _ _ H Hn Hs)
               eq_refl).
Defined.

(** X20, at a search for one record out of two that qualify. *)
Lemma search_result_count_witness :
  let out := @search_content Example.externals Tour.search_top1
                             Example.world in
  let results := [@result_of Example.externals [1] Example.alice] in
  fst out = inr results
  /\ exists p,
       (forall row, p row = true <->
          @passes_filters Example.externals Tour.search_top1 [1] row)
       /\ List.length results
          = Nat.min 1 (List.length (filter p (embedding_store Example.world))).
Proof.
  intros out results.
  assert (H : out = (inr results, snd out)) by reflexivity.
  split; [reflexivity |].
  destruct (@search_result_count Example.externals _ _ _ _ H)
    as [v [p [Hv [Hp Hn]]]].
  assert (E : embed "a feline on a rug" Example.world = (inr [1], snd out))
    by reflexivity.
  assert (Hv1 : v = [1]).
  { simpl in Hv. rewrite E in Hv. injection Hv as <-. reflexivity. }
  subst v. exists p. split; [exact Hp | exact Hn].
Defined.

Lemma passes_filters_bob_since :
  @passes_filters Example.externals Tour.search_bob_since [1] Example.bob.
Proof.
  unfold passes_filters, supplied. simpl.
  repeat split; try (intros s [Hs _]; discriminate Hs).
  - intros u [Hu _]. injection Hu as <-. reflexivity.
  - intros s [Hs _]. injection Hs as <-.
    exists 1735689600%Z. split; [reflexivity | simpl; lia].
  - apply Qle_bool_iff. reflexivity.
Qed.

(** C8, at a search for the records of one owner created since 2025. *)
Lemma search_owner_filter_witness :
  let out := @search_content Example.externals Tour.search_bob_since
                             Example.world in
  let results := [@result_of Example.externals [1] Example.bob] in
  fst out = inr results
  /\ Forall (fun r => SearchResult.user_id r = "bob") results
  /\ exists v,
       embed "a feline on a rug" Example.world = (inr v, snd out)
       /\ (forall r, In r results ->
            exists row,
              In row (embedding_store Example.world)
              /\ r = @result_of Example.externals v row
              /\ @passes_filters Example.externals Tour.search_bob_since
                                 v row)
       /\ In (@result_of Example.externals v Example.bob) results.
Proof.
  intros out results.
  assert (H : out = (inr results, snd out)) by reflexivity.
  split; [reflexivity |].
  destruct (@search_owner_filter Example.externals _ _ _ _ H)
    as [Hu [_ [_ [v [Hv [Hsound Hall]]]]]].
  split; [apply (Hu "bob" eq_refl); discriminate |].
  assert (E : embed "a feline on a rug" Example.world = (inr [1], snd out))
    by reflexivity.
  assert (Hv1 : v = [1]).
  { simpl in Hv. rewrite E in Hv. injection Hv as <-. reflexivity. }
  subst v. exists [1]. split; [exact E |]. split; [exact Hsound |].
  apply Hall.
  - intros n Hn. injection Hn as <-. simpl. lia.
  - simpl. auto.
  - exact passes_filters_bob_since.
Defined.
